(** * ClearCast AI: the upload / process / history session and its
      generation client

    A shallow embedding of [App.tsx] (the React component holding the
    session state and its handlers) and of [services/gemini] (the two
    remote generation calls and the file encoder).

    Handlers are asynchronous JavaScript functions: they call state
    setters, await host and network calls, catch thrown faults and run a
    [finally] block.  They are embedded in a small monad that threads the
    session state, records every setter call and every external call in a
    chronological trace, and propagates thrown faults.  The outside world
    (remote model, key-selection host, file reader, clock, build-time
    credential) is an explicit record of answers; every awaited call of
    a collaborator can resolve or reject. *)

From Stdlib Require Import String Ascii List ZArith Bool Lia.
From Stdlib Require Import DecimalString DecimalZ DecimalPos.
Import ListNotations.
Local Open Scope list_scope.
Local Open Scope string_scope.

(** ** JavaScript value conventions *)

(** Truthiness of a [string | null | undefined] value: [null],
    [undefined] and the empty string are falsy. *)
Definition truthy (v : option string) : bool :=
  match v with
  | Some s => negb (s =? "")
  | None => false
  end.

(** A value interpolated in a template literal: an absent value prints as
    the word undefined. *)
Definition template (v : option string) : string :=
  match v with
  | Some s => s
  | None => "undefined"
  end.

(** [v || d] on strings. *)
Definition or_else (v : option string) (d : string) : string :=
  match v with
  | Some s => if s =? "" then d else s
  | None => d
  end.

(** [s.startsWith(p)] *)
Definition startsWith (s p : string) : bool := String.prefix p s.

(** [s.includes(p)]: [p] occurs somewhere in [s]. *)
Fixpoint includes (s p : string) : bool :=
  String.prefix p s ||
  match s with
  | EmptyString => false
  | String _ s' => includes s' p
  end.

(** [s.split(sep)] for a one-character separator. *)
Fixpoint split (sep : ascii) (s : string) : list string :=
  match s with
  | EmptyString => [EmptyString]
  | String c r =>
      if Ascii.eqb c sep then EmptyString :: split sep r
      else match split sep r with
           | [] => [String c EmptyString]
           | h :: t => String c h :: t
           end
  end.

(** ** Data of the generation service (the fields the code reads) *)

Record Blob := { data : option string; blob_mimeType : option string }.
Record Part := { inlineData : option Blob; text : option string }.
Record Content := { parts : option (list Part) }.
Record Candidate := { content : option Content }.
Record GenerateContentResponse := { candidates : option (list Candidate) }.

Record GenerateContentParameters :=
  { gc_model : string; gc_parts : list Part }.

Inductive AspectRatio := AR_16_9 | AR_9_16.

Definition aspect_text (a : AspectRatio) : string :=
  match a with AR_16_9 => "16:9" | AR_9_16 => "9:16" end.

Record GenerateVideosParameters :=
  { gv_model : string;
    gv_prompt : string;
    numberOfVideos : Z;
    resolution : string;
    gv_aspectRatio : AspectRatio }.

Record Video := { uri : option string }.
Record GeneratedVideo := { video : option Video }.
Record GenerateVideosResponse :=
  { generatedVideos : option (list GeneratedVideo) }.

(** The long-running operation: [name] is the job handle; an absent
    [done] reads as false under [!operation.done]. *)
Record Operation :=
  { name : string; done : bool; response : option GenerateVideosResponse }.

(** A thrown value, of which the handlers only read [message]. *)
Record Fault := { message : option string }.

Record File := { file_name : string; file_type : string }.

(** ** Session state of the component *)

(** The string-literal union ['image' | 'video']. *)
Inductive Tab := TabImage | TabVideo.

Record EditHistory :=
  { type : Tab; original : string; edited : string; timestamp : Z }.

Record Session :=
  { activeTab : Tab;
    selectedFile : option string;
    mimeType : string;
    processedResult : option string;
    isProcessing : bool;
    history : list EditHistory;
    error : option string;
    instruction : string;
    videoAspectRatio : AspectRatio }.

(** The [useState] initial values. *)
Definition initialSession : Session :=
  {| activeTab := TabImage;
     selectedFile := None;
     mimeType := "";
     processedResult := None;
     isProcessing := false;
     history := [];
     error := None;
     instruction :=
       "Remove the watermark and logos, keeping the background seamless.";
     videoAspectRatio := AR_16_9 |}.

(** A call of one of the state setters.  [PrependHistory e] is
    [setHistory(prev => [e, ...prev])]. *)
Inductive Setter :=
| SetActiveTab (t : Tab)
| SetSelectedFile (v : option string)
| SetMimeType (m : string)
| SetProcessedResult (v : option string)
| SetIsProcessing (b : bool)
| PrependHistory (e : EditHistory)
| SetError (v : option string)
| SetInstruction (i : string)
| SetVideoAspectRatio (a : AspectRatio).

Definition apply_setter (u : Setter) (s : Session) : Session :=
  match u with
  | SetActiveTab t =>
      {| activeTab := t; selectedFile := selectedFile s;
         mimeType := mimeType s; processedResult := processedResult s;
         isProcessing := isProcessing s; history := history s;
         error := error s; instruction := instruction s;
         videoAspectRatio := videoAspectRatio s |}
  | SetSelectedFile v =>
      {| activeTab := activeTab s; selectedFile := v;
         mimeType := mimeType s; processedResult := processedResult s;
         isProcessing := isProcessing s; history := history s;
         error := error s; instruction := instruction s;
         videoAspectRatio := videoAspectRatio s |}
  | SetMimeType m =>
      {| activeTab := activeTab s; selectedFile := selectedFile s;
         mimeType := m; processedResult := processedResult s;
         isProcessing := isProcessing s; history := history s;
         error := error s; instruction := instruction s;
         videoAspectRatio := videoAspectRatio s |}
  | SetProcessedResult v =>
      {| activeTab := activeTab s; selectedFile := selectedFile s;
         mimeType := mimeType s; processedResult := v;
         isProcessing := isProcessing s; history := history s;
         error := error s; instruction := instruction s;
         videoAspectRatio := videoAspectRatio s |}
  | SetIsProcessing b =>
      {| activeTab := activeTab s; selectedFile := selectedFile s;
         mimeType := mimeType s; processedResult := processedResult s;
         isProcessing := b; history := history s;
         error := error s; instruction := instruction s;
         videoAspectRatio := videoAspectRatio s |}
  | PrependHistory e =>
      {| activeTab := activeTab s; selectedFile := selectedFile s;
         mimeType := mimeType s; processedResult := processedResult s;
         isProcessing := isProcessing s; history := e :: history s;
         error := error s; instruction := instruction s;
         videoAspectRatio := videoAspectRatio s |}
  | SetError v =>
      {| activeTab := activeTab s; selectedFile := selectedFile s;
         mimeType := mimeType s; processedResult := processedResult s;
         isProcessing := isProcessing s; history := history s;
         error := v; instruction := instruction s;
         videoAspectRatio := videoAspectRatio s |}
  | SetInstruction i =>
      {| activeTab := activeTab s; selectedFile := selectedFile s;
         mimeType := mimeType s; processedResult := processedResult s;
         isProcessing := isProcessing s; history := history s;
         error := error s; instruction := i;
         videoAspectRatio := videoAspectRatio s |}
  | SetVideoAspectRatio a =>
      {| activeTab := activeTab s; selectedFile := selectedFile s;
         mimeType := mimeType s; processedResult := processedResult s;
         isProcessing := isProcessing s; history := history s;
         error := error s; instruction := instruction s;
         videoAspectRatio := a |}
  end.

(** ** Observable events, in the order the code performs them *)

Inductive Event :=
| Set_ (u : Setter)
| Call_removeWatermarkFromImage (base64Image mime instr : string)
| Call_processVideoWatermark (prompt : string) (a : AspectRatio)
| NewGoogleGenAI (apiKey : string)
| GenerateContent (req : GenerateContentParameters)
| GenerateVideos (req : GenerateVideosParameters)
| SetTimeout (ms : Z)
| GetVideosOperation (op : Operation)
| HasSelectedApiKey
| OpenSelectKey
| ReadAsDataURL (f : File)
| ConsoleError (label : option string) (f : Fault).

Definition Trace := list Event.

(** Requests that leave the browser for the generation service. *)
Definition is_network (e : Event) : bool :=
  match e with
  | GenerateContent _ | GenerateVideos _ | GetVideosOperation _ => true
  | _ => false
  end.

Definition is_openSelectKey (e : Event) : bool :=
  match e with OpenSelectKey => true | _ => false end.

(** How often a trace opens the key-selection dialog. *)
Definition count_prompts (t : Trace) : nat :=
  length (filter is_openSelectKey t).

(** Operations handed to the successive poll requests of a trace. *)
Fixpoint polled (t : Trace) : list Operation :=
  match t with
  | [] => []
  | GetVideosOperation op :: t' => op :: polled t'
  | _ :: t' => polled t'
  end.

(** ** The outside world

    The answers of the collaborators.  An awaited call either resolves
    or rejects with a fault.  A call that a run can make more than once
    (a poll, the opening of the key-selection dialog) is answered by its
    rank among the calls of that kind in the run. *)

Record Env :=
  { API_KEY : option string;
    models_generateContent :
      GenerateContentParameters -> Fault + GenerateContentResponse;
    models_generateVideos : GenerateVideosParameters -> Fault + Operation;
    (** the answer to the [n]-th poll request of a run *)
    operations_getVideosOperation : nat -> Operation -> Fault + Operation;
    aistudio_hasSelectedApiKey : Fault + bool;
    (** the answer to the [n]-th opening of the key dialog in a run *)
    aistudio_openSelectKey : nat -> Fault + unit;
    FileReader_readAsDataURL : File -> Fault + string;
    Date_now : Z }.

(** ** The handler monad

    A computation ends by returning, by throwing, or is still inside the
    unbounded poll loop when the iteration budget of the model runs out;
    in each case it carries the state reached and the events performed so
    far. *)

Inductive Res (A : Type) :=
| Done (a : A) (s : Session) (t : Trace)
| Thrown (f : Fault) (s : Session) (t : Trace)
| Diverged (s : Session) (t : Trace).

Arguments Done {A} a s t.
Arguments Thrown {A} f s t.
Arguments Diverged {A} s t.

Definition M (A : Type) := Session -> Res A.

Definition ret {A} (a : A) : M A := fun s => Done a s [].

Definition bind {A B} (m : M A) (k : A -> M B) : M B :=
  fun s =>
    match m s with
    | Done a s1 t1 =>
        match k a s1 with
        | Done b s2 t2 => Done b s2 (t1 ++ t2)%list
        | Thrown f s2 t2 => Thrown f s2 (t1 ++ t2)%list
        | Diverged s2 t2 => Diverged s2 (t1 ++ t2)%list
        end
    | Thrown f s1 t1 => Thrown f s1 t1
    | Diverged s1 t1 => Diverged s1 t1
    end.

Notation "x <- m ;; k" := (bind m (fun x => k))
  (at level 61, m at next level, right associativity).
Notation "m ;; k" := (bind m (fun _ => k))
  (at level 61, right associativity).

Definition throw {A} (f : Fault) : M A := fun s => Thrown f s [].

Definition emit (e : Event) : M unit := fun s => Done tt s [e].

(** A setter call: recorded, and applied to the state. *)
Definition set (u : Setter) : M unit :=
  fun s => Done tt (apply_setter u s) [Set_ u].

(** An awaited external call: recorded, then it resolves or rejects. *)
Definition await {A} (e : Event) (answer : Fault + A) : M A :=
  emit e ;;
  match answer with
  | inr a => ret a
  | inl f => throw f
  end.

(** [try { m } catch (err) { h err }] *)
Definition try_catch {A} (m : M A) (h : Fault -> M A) : M A :=
  fun s =>
    match m s with
    | Done a s1 t1 => Done a s1 t1
    | Thrown f s1 t1 =>
        match h f s1 with
        | Done b s2 t2 => Done b s2 (t1 ++ t2)%list
        | Thrown g s2 t2 => Thrown g s2 (t1 ++ t2)%list
        | Diverged s2 t2 => Diverged s2 (t1 ++ t2)%list
        end
    | Diverged s1 t1 => Diverged s1 t1
    end.

(** [try { m } catch (err) { h err }] for a handler whose own calls are
    answered by rank: it is handed the events of the [try] block, which
    tell how many calls of a kind the run has made already. *)
Definition try_catch_seen {A} (m : M A) (h : Trace -> Fault -> M A) : M A :=
  fun s =>
    match m s with
    | Done a s1 t1 => Done a s1 t1
    | Thrown f s1 t1 =>
        match h t1 f s1 with
        | Done b s2 t2 => Done b s2 (t1 ++ t2)%list
        | Thrown g s2 t2 => Thrown g s2 (t1 ++ t2)%list
        | Diverged s2 t2 => Diverged s2 (t1 ++ t2)%list
        end
    | Diverged s1 t1 => Diverged s1 t1
    end.

(** [try { m } finally { fin }] *)
Definition try_finally {A} (m : M A) (fin : M unit) : M A :=
  fun s =>
    match m s with
    | Done a s1 t1 =>
        match fin s1 with
        | Done _ s2 t2 => Done a s2 (t1 ++ t2)%list
        | Thrown g s2 t2 => Thrown g s2 (t1 ++ t2)%list
        | Diverged s2 t2 => Diverged s2 (t1 ++ t2)%list
        end
    | Thrown f s1 t1 =>
        match fin s1 with
        | Done _ s2 t2 => Thrown f s2 (t1 ++ t2)%list
        | Thrown g s2 t2 => Thrown g s2 (t1 ++ t2)%list
        | Diverged s2 t2 => Diverged s2 (t1 ++ t2)%list
        end
    | Diverged s1 t1 => Diverged s1 t1
    end.

(** The unbounded [while] loop, when the iteration budget is exhausted. *)
Definition diverge {A} : M A := fun s => Diverged s [].

Definition Tab_eqb (a b : Tab) : bool :=
  match a, b with
  | TabImage, TabImage | TabVideo, TabVideo => true
  | _, _ => false
  end.

(** ** services/gemini *)

Section Gemini.

Variable env : Env.

(** The request of the image edit: the payload after the data-URL comma
    (or the whole string when there is none), the MIME type, and the
    instruction text. *)
Definition image_request (base64Image mime instr : string)
  : GenerateContentParameters :=
  {| gc_model := "gemini-2.5-flash-image";
     gc_parts :=
       [ {| inlineData :=
              Some {| data :=
                        Some (or_else (nth_error (split "," base64Image) 1)
                                      base64Image);
                      blob_mimeType := Some mime |};
            text := None |};
         {| inlineData := None; text := Some instr |} ] |}.

(** [response.candidates?.[0]?.content?.parts || []] *)
Definition response_parts (r : GenerateContentResponse) : list Part :=
  match candidates r with
  | Some (c :: _) =>
      match content c with
      | Some ct => match parts ct with Some ps => ps | None => [] end
      | None => []
      end
  | _ => []
  end.

(** The [for] loop over the parts: the first one with inline data is
    returned as a data URL. *)
Fixpoint first_inline (ps : list Part) : option string :=
  match ps with
  | [] => None
  | p :: ps' =>
      match inlineData p with
      | Some b =>
          Some ("data:" ++ template (blob_mimeType b) ++ ";base64,"
                        ++ template (data b))
      | None => first_inline ps'
      end
  end.

(** The caller always passes the instruction, so the default of the
    third parameter is never used. *)
Definition removeWatermarkFromImage (base64Image mime instr : string)
  : M (option string) :=
  emit (Call_removeWatermarkFromImage base64Image mime instr) ;;
  try_catch
    (emit (NewGoogleGenAI (or_else (API_KEY env) "")) ;;
     response <- await (GenerateContent (image_request base64Image mime instr))
                       (models_generateContent env
                          (image_request base64Image mime instr)) ;;
     ret (first_inline (response_parts response)))
    (fun err =>
       emit (ConsoleError (Some "Gemini API Error:") err) ;;
       throw err).

Definition video_request (prompt : string) (a : AspectRatio)
  : GenerateVideosParameters :=
  {| gv_model := "veo-3.1-fast-generate-preview";
     gv_prompt :=
       prompt ++ ". Ensure the video is completely clean with no watermarks, logos, or overlays. High quality, seamless textures.";
     numberOfVideos := 1;
     resolution := "720p";
     gv_aspectRatio := a |}.

(** [while (!operation.done) { sleep 10 s; operation = poll(operation) }];
    [n] counts the polls already made, [fuel] bounds the iterations. *)
Fixpoint poll_loop (fuel n : nat) (operation : Operation) : M Operation :=
  if done operation then ret operation
  else
    match fuel with
    | O => diverge
    | S fuel' =>
        emit (SetTimeout 10000) ;;
        operation' <- await (GetVideosOperation operation)
                            (operations_getVideosOperation env n operation) ;;
        poll_loop fuel' (S n) operation'
    end.

(** [operation.response?.generatedVideos?.[0]?.video?.uri] *)
Definition downloadLink (operation : Operation) : option string :=
  match response operation with
  | Some r =>
      match generatedVideos r with
      | Some (g :: _) =>
          match video g with
          | Some v => uri v
          | None => None
          end
      | _ => None
      end
  | None => None
  end.

Definition processVideoWatermark (fuel : nat) (prompt : string)
  (a : AspectRatio) : M (option string) :=
  emit (Call_processVideoWatermark prompt a) ;;
  try_catch
    (emit (NewGoogleGenAI (or_else (API_KEY env) "")) ;;
     operation <- await (GenerateVideos (video_request prompt a))
                        (models_generateVideos env (video_request prompt a)) ;;
     operation <- poll_loop fuel 0 operation ;;
     if negb (truthy (downloadLink operation)) then ret None
     else ret (Some (template (downloadLink operation) ++ "&key="
                       ++ template (API_KEY env))))
    (fun err =>
       emit (ConsoleError (Some "Video Generation Error:") err) ;;
       throw err).

Definition fileToBase64 (file : File) : M string :=
  await (ReadAsDataURL file) (FileReader_readAsDataURL env file).

End Gemini.

(** ** App.tsx

    A handler is a closure over the values of the render that created
    it: [r] is that render's session, which the handler reads, while the
    setters act on the threaded state. *)

Section App.

Variable env : Env.

(** Both host calls are awaited: the dialog is the first one the run
    opens, and like the key query it can reject. *)
Definition checkAndPromptKey (r : Session) : M bool :=
  if Tab_eqb (activeTab r) TabVideo then
    hasKey <- await HasSelectedApiKey (aistudio_hasSelectedApiKey env) ;;
    if negb hasKey then
      await OpenSelectKey (aistudio_openSelectKey env 0) ;; ret true
    else ret true
  else ret true.

(** [file] is [e.target.files?.[0]]. *)
Definition handleFileSelect (r : Session) (file : option File) : M unit :=
  match file with
  | None => ret tt
  | Some file =>
      if Tab_eqb (activeTab r) TabImage
         && negb (startsWith (file_type file) "image/")
      then set (SetError (Some "Please select an image file."))
      else if Tab_eqb (activeTab r) TabVideo
              && negb (startsWith (file_type file) "video/")
      then set (SetError (Some "Please select a video file."))
      else
        set (SetMimeType (file_type file)) ;;
        try_catch
          (base64 <- fileToBase64 env file ;;
           set (SetSelectedFile (Some base64)) ;;
           set (SetProcessedResult None) ;;
           set (SetError None))
          (fun _ => set (SetError (Some "Error reading file.")))
  end.

Definition addToHistory (ty : Tab) (orig edit : string) : M unit :=
  set (PrependHistory {| type := ty; original := orig; edited := edit;
                         timestamp := Date_now env |}).

Definition auth_marker : string := "Requested entity was not found".

Definition api_key_message : string :=
  "API Key configuration error. Please select a valid key.".

Definition image_failure_message : string := "Failed to process the image.".

Definition video_failure_message : string :=
  "Video processing timed out or failed.".

Definition fallback_message : string := "An unexpected error occurred.".

(** [err.message?.includes("Requested entity was not found")]: an absent
    message is not a match. *)
Definition is_auth_fault (err : Fault) : bool :=
  match message err with
  | Some m => includes m auth_marker
  | None => false
  end.

(** The [catch] block of [handleProcess].  The dialog is awaited with
    nothing around it: when it rejects, the block is left before
    [setError] and [console.error], and the rejection goes on to the
    [finally] block and out of the handler.  [seen] are the events of
    the [try] block. *)
Definition handleProcess_catch (seen : Trace) (err : Fault) : M unit :=
  (if is_auth_fault err
   then
     await OpenSelectKey (aistudio_openSelectKey env (count_prompts seen)) ;;
     set (SetError (Some api_key_message))
   else set (SetError (Some (or_else (message err) fallback_message)))) ;;
  emit (ConsoleError None err).

(** The [try] block of [handleProcess], for a truthy [selectedFile];
    [if (result)] takes the failure branch for [null] and for the empty
    string. *)
Definition handleProcess_try (fuel : nat) (r : Session) (src : string)
  : M unit :=
  if Tab_eqb (activeTab r) TabImage then
    result <- removeWatermarkFromImage env src (mimeType r) (instruction r) ;;
    match result with
    | Some res =>
        if res =? "" then set (SetError (Some image_failure_message))
        else
          set (SetProcessedResult (Some res)) ;;
          addToHistory TabImage src res
    | None => set (SetError (Some image_failure_message))
    end
  else
    _ <- checkAndPromptKey r ;;
    result <- processVideoWatermark env fuel (instruction r)
                                    (videoAspectRatio r) ;;
    match result with
    | Some res =>
        if res =? "" then set (SetError (Some video_failure_message))
        else
          set (SetProcessedResult (Some res)) ;;
          addToHistory TabVideo src res
    | None => set (SetError (Some video_failure_message))
    end.

(** The [try] / [catch] / [finally] statement of [handleProcess]. *)
Definition handleProcess_statement (fuel : nat) (r : Session) (src : string)
  : M unit :=
  try_finally
    (try_catch_seen (handleProcess_try fuel r src) handleProcess_catch)
    (set (SetIsProcessing false)).

(** [if (!selectedFile) return;] then the two opening setter calls and
    the [try] / [catch] / [finally] statement. *)
Definition handleProcess (fuel : nat) (r : Session) : M unit :=
  match selectedFile r with
  | Some src =>
      if src =? "" then ret tt
      else
        set (SetIsProcessing true) ;;
        set (SetError None) ;;
        handleProcess_statement fuel r src
  | None => ret tt
  end.

Definition clearCurrent : M unit :=
  set (SetSelectedFile None) ;;
  set (SetProcessedResult None) ;;
  set (SetError None).

(** The tab buttons of the header. *)
Definition selectTab (t : Tab) : M unit :=
  set (SetActiveTab t) ;; clearCurrent.

(** [onClick] of a history item. *)
Definition history_onClick (item : EditHistory) : M unit :=
  set (SetActiveTab (type item)) ;;
  set (SetSelectedFile (Some (original item))) ;;
  set (SetProcessedResult (Some (edited item))).

(** The start / refine button: it is part of the editor layout, rendered
    only for a truthy [selectedFile], and carries
    [disabled={isProcessing}]; a disabled or absent button delivers no
    click. *)
Definition editor_rendered (r : Session) : bool := truthy (selectedFile r).

Definition startButton_disabled (r : Session) : bool := isProcessing r.

Definition startButton_click (fuel : nat) (r : Session) : M unit :=
  if editor_rendered r && negb (startButton_disabled r)
  then handleProcess fuel r
  else ret tt.

(** What the main panel shows: the result when there is one, the
    uploaded source otherwise; the error banner when [error] is truthy. *)
Definition displayed_asset (r : Session) : option string :=
  if truthy (processedResult r) then processedResult r else selectedFile r.

Definition error_banner (r : Session) : option string :=
  if truthy (error r) then error r else None.

End App.

(** Running a handler created by the render of [s], from [s]. *)
Definition run {A} (h : Session -> M A) (s : Session) : Res A := h s s.

Definition final_state {A} (r : Res A) : Session :=
  match r with
  | Done _ s _ | Thrown _ s _ | Diverged s _ => s
  end.

Definition trace_of {A} (r : Res A) : Trace :=
  match r with
  | Done _ _ t | Thrown _ _ t | Diverged _ t => t
  end.

(** ** Vocabulary of the properties *)

Section Vocabulary.

Variable env : Env.

(** The state in which the [try] block of [handleProcess] starts, after
    [setIsProcessing(true)] and [setError(null)]. *)
Definition dispatched (s : Session) : Session :=
  apply_setter (SetError None) (apply_setter (SetIsProcessing true) s).

(** The two setter calls that open a run. *)
Definition dispatch_events : Trace :=
  [Set_ (SetIsProcessing true); Set_ (SetError None)].

(** The awaited part of the [try] block, up to the value bound to
    [result]: what a processing run asks of the collaborators. *)
Definition generation (fuel : nat) (r : Session) (src : string)
  : M (option string) :=
  if Tab_eqb (activeTab r) TabImage then
    removeWatermarkFromImage env src (mimeType r) (instruction r)
  else
    _ <- checkAndPromptKey env r ;;
    processVideoWatermark env fuel (instruction r) (videoAspectRatio r).

Definition failure_message (t : Tab) : string :=
  match t with
  | TabImage => image_failure_message
  | TabVideo => video_failure_message
  end.

(** What the [try] block does with [result]. *)
Definition store_result (r : Session) (src : string)
  (result : option string) : M unit :=
  match result with
  | Some res =>
      if res =? "" then set (SetError (Some (failure_message (activeTab r))))
      else
        set (SetProcessedResult (Some res)) ;;
        addToHistory env (activeTab r) src res
  | None => set (SetError (Some (failure_message (activeTab r))))
  end.

(** A video job, submitted as [op], that is polled with the operations
    [ops] in turn (the [n]-th poll first) and then reports [opf] done. *)
Inductive PollRun : nat -> Operation -> list Operation -> Operation -> Prop :=
| PollRun_done n op :
    done op = true -> PollRun n op [] op
| PollRun_step n op op' ops opf :
    done op = false ->
    operations_getVideosOperation env n op = inr op' ->
    PollRun (S n) op' ops opf ->
    PollRun n op (op :: ops) opf.

(** The key check lets the run go on: the host answers the key query
    and, when no key is selected, the dialog resolves. *)
Definition key_check_passes : bool :=
  match aistudio_hasSelectedApiKey env with
  | inl _ => false
  | inr true => true
  | inr false =>
      match aistudio_openSelectKey env 0 with
      | inr _ => true
      | inl _ => false
      end
  end.


(** The key check of video mode prompts when no key is selected. *)
Definition pre_dispatch_prompts (r : Session) : nat :=
  if Tab_eqb (activeTab r) TabVideo then
    match aistudio_hasSelectedApiKey env with
    | inr false => 1
    | _ => 0
    end
  else 0.

(** A remote call that succeeds without a usable asset, after [k] polls. *)
Inductive EmptyResult (s : Session) : nat -> Prop :=
| EmptyResult_image src resp :
    activeTab s = TabImage ->
    selectedFile s = Some src ->
    models_generateContent env
      (image_request src (mimeType s) (instruction s)) = inr resp ->
    first_inline (response_parts resp) = None ->
    EmptyResult s 0
| EmptyResult_video b op0 ops opf :
    activeTab s = TabVideo ->
    aistudio_hasSelectedApiKey env = inr b ->
    (b = false -> aistudio_openSelectKey env 0 = inr tt) ->
    models_generateVideos env
      (video_request (instruction s) (videoAspectRatio s)) = inr op0 ->
    PollRun 0 op0 ops opf ->
    truthy (downloadLink opf) = false ->
    EmptyResult s (length ops).

End Vocabulary.

Definition is_client_call (e : Event) : bool :=
  match e with
  | Call_removeWatermarkFromImage _ _ _
  | Call_processVideoWatermark _ _ => true
  | _ => false
  end.

(** The arguments a client invocation receives. *)
Definition client_inputs (e : Event) : list string :=
  match e with
  | Call_removeWatermarkFromImage b m i => [b; m; i]
  | Call_processVideoWatermark p a => [p; aspect_text a]
  | _ => []
  end.

Definition is_history_append (e : Event) : bool :=
  match e with Set_ (PrependHistory _) => true | _ => false end.

Definition is_result_write (e : Event) : bool :=
  match e with Set_ (SetProcessedResult _) => true | _ => false end.

Definition is_encoding (e : Event) : bool :=
  match e with ReadAsDataURL _ => true | _ => false end.

(** Events of the generation client after its request is submitted:
    the waits and polls of the loop, and the log of a fault. *)
Definition after_submit_event (e : Event) : bool :=
  match e with
  | SetTimeout _ | GetVideosOperation _ | ConsoleError _ _ => true
  | _ => false
  end.

(** The requests that submit work to the service. *)
Definition is_submission (e : Event) : bool :=
  match e with
  | GenerateContent _ | GenerateVideos _ => true
  | _ => false
  end.

Definition is_setter (e : Event) : bool :=
  match e with Set_ _ => true | _ => false end.

(** Events of the blocks that close a run: result handling, [catch] and
    [finally]. *)
Definition closing_event (e : Event) : bool :=
  match e with
  | Set_ _ | OpenSelectKey | ConsoleError None _ => true
  | _ => false
  end.


(** The wait and the poll of one loop iteration. *)
Definition poll_events (ops : list Operation) : Trace :=
  flat_map (fun op => [SetTimeout 10000; GetVideosOperation op]) ops.

(** *** Readings of the specification that the code does not satisfy *)

(** Every invocation of the generation client receives the source and
    the instruction. *)
Definition client_receives_source (env : Env) (fuel : nat) (s : Session)
  : Prop :=
  forall src e,
    selectedFile s = Some src -> src <> "" ->
    In e (trace_of (run (handleProcess env fuel) s)) ->
    is_client_call e = true ->
    In src (client_inputs e) /\ In (instruction s) (client_inputs e).


(** A run whose generation throws an authentication fault ends with the
    API-key message displayed. *)
Definition auth_fault_shows_key_message (env : Env) (fuel : nat)
  (s : Session) : Prop :=
  forall src f s1 t1,
    selectedFile s = Some src -> src <> "" ->
    generation env fuel s src (dispatched s) = Thrown f s1 t1 ->
    is_auth_fault f = true ->
    error (final_state (run (handleProcess env fuel) s))
    = Some api_key_message.


(** Selecting a history entry leaves no error. *)
Definition history_select_clears_error (s : Session) (item : EditHistory)
  : Prop :=
  error (final_state (run (fun _ => history_onClick item) s)) = None.

(** ** Sample worlds and sessions *)

Definition edited_response : GenerateContentResponse :=
  {| candidates :=
       Some [ {| content :=
                   Some {| parts :=
                             Some [ {| inlineData := None;
                                       text := Some "Here is the image." |};
                                    {| inlineData :=
                                         Some {| data := Some "QkJCQg==";
                                                 blob_mimeType :=
                                                   Some "image/png" |};
                                       text := None |} ] |} |} ] |}.

Definition text_only_response : GenerateContentResponse :=
  {| candidates :=
       Some [ {| content :=
                   Some {| parts :=
                             Some [ {| inlineData := None;
                                       text := Some "I cannot edit it." |} ]
                        |} |} ] |}.

Definition job_pending : Operation :=
  {| name := "operations/job-1"; done := false; response := None |}.

Definition job_finished (u : option string) (op : Operation) : Operation :=
  {| name := name op; done := true;
     response :=
       Some {| generatedVideos := Some [ {| video := Some {| uri := u |} |} ]
            |} |}.

Definition job_without_video (op : Operation) : Operation :=
  {| name := name op; done := true;
     response := Some {| generatedVideos := None |} |}.

Definition auth_fault : Fault :=
  {| message := Some "404 NOT_FOUND: Requested entity was not found." |}.

Definition quota_fault : Fault :=
  {| message := Some "429 RESOURCE_EXHAUSTED" |}.

Definition read_fault : Fault := {| message := None |}.

(** A world in which the [polls]-th poll is answered by [finished] and
    the earlier ones return the operation unchanged. *)
Definition sample_env (hasKey : Fault + bool)
  (img : Fault + GenerateContentResponse) (submit : Fault + Operation)
  (polls : nat) (finished : Operation -> Fault + Operation)
  (reader : File -> Fault + string) : Env :=
  {| API_KEY := Some "AIza-sample";
     models_generateContent := fun _ => img;
     models_generateVideos := fun _ => submit;
     operations_getVideosOperation :=
       fun n op => if Nat.ltb (S n) polls then inr op else finished op;
     aistudio_hasSelectedApiKey := hasKey;
     aistudio_openSelectKey := fun _ => inr tt;
     FileReader_readAsDataURL := reader;
     Date_now := 1700000000000 |}.

(** The world [e] with the key dialog answering by [dialog]. *)
Definition with_dialog (dialog : nat -> Fault + unit) (e : Env) : Env :=
  {| API_KEY := API_KEY e;
     models_generateContent := models_generateContent e;
     models_generateVideos := models_generateVideos e;
     operations_getVideosOperation := operations_getVideosOperation e;
     aistudio_hasSelectedApiKey := aistudio_hasSelectedApiKey e;
     aistudio_openSelectKey := dialog;
     FileReader_readAsDataURL := FileReader_readAsDataURL e;
     Date_now := Date_now e |}.


Definition reads_fine (f : File) : Fault + string :=
  inr ("data:" ++ file_type f ++ ";base64,QUFBQQ==").

Definition reads_fail (f : File) : Fault + string := inl read_fault.

Definition video_link : string :=
  "https://video.example/v1/files/1:download?alt=media".

Definition env_ok : Env :=
  sample_env (inr true) (inr edited_response) (inr job_pending) 2
    (fun op => inr (job_finished (Some video_link) op)) reads_fine.

Definition env_empty : Env :=
  sample_env (inr true) (inr text_only_response) (inr job_pending) 1
    (fun op => inr (job_without_video op)) reads_fail.

Definition env_auth : Env :=
  sample_env (inr false) (inl auth_fault) (inl auth_fault) 1
    (fun _ => inl auth_fault) reads_fine.


Definition dialog_fault : Fault :=
  {| message := Some "The key selection could not be opened." |}.

(** The service refuses with the authentication marker, and the key
    dialog rejects whenever it is opened. *)
Definition env_dialog_fails : Env :=
  with_dialog (fun _ => inl dialog_fault) env_auth.



Definition photo : string := "data:image/png;base64,QUFBQQ==".
Definition clip : string := "data:video/mp4;base64,QUFBQQ==".

Definition s_image : Session :=
  apply_setter (SetSelectedFile (Some photo))
    (apply_setter (SetMimeType "image/png") initialSession).

Definition s_video : Session :=
  apply_setter (SetSelectedFile (Some clip))
    (apply_setter (SetMimeType "video/mp4")
       (apply_setter (SetActiveTab TabVideo) initialSession)).

(** A run is already in progress. *)
Definition s_busy : Session := apply_setter (SetIsProcessing true) s_image.

Definition old_entry : EditHistory :=
  {| type := TabImage; original := photo;
     edited := "data:image/png;base64,QkJCQg=="; timestamp := 1690000000000 |}.

(** An earlier run succeeded; the result is shown and can be refined. *)
Definition s_refine : Session :=
  apply_setter (PrependHistory old_entry)
    (apply_setter (SetProcessedResult (Some (edited old_entry))) s_image).

(** A later run failed and left its message; the history still holds
    the earlier success. *)
Definition s_failed : Session :=
  apply_setter (SetError (Some image_failure_message)) s_refine.

Definition movie_file : File :=
  {| file_name := "clip.mp4"; file_type := "video/mp4" |}.

Definition mov_file : File :=
  {| file_name := "take2.mov"; file_type := "video/quicktime" |}.

Definition logo_file : File :=
  {| file_name := "logo.png"; file_type := "image/png" |}.

(** ** The rest of the component: downloads, labels, user actions *)

(** A number interpolated in a template literal: an integer prints in
    decimal, with a minus sign when negative. *)
Definition show_Z (n : Z) : string := NilZero.string_of_int (Z.to_int n).

(** The anchor element that [downloadResult] builds and clicks. *)
Record Anchor := { href : string; download : string }.

(** The tab as the string it is in the source. *)
Definition tab_name (t : Tab) : string :=
  match t with TabImage => "image" | TabVideo => "video" end.

(** [downloadResult(url)]: the file name is made of the active tab and
    the clock, the extension chosen by the active tab. *)
Definition downloadResult (env : Env) (r : Session) (url : string) : Anchor :=
  {| href := url;
     download :=
       "clearcast-" ++ tab_name (activeTab r) ++ "-" ++ show_Z (Date_now env)
       ++ "." ++ (if Tab_eqb (activeTab r) TabImage then "png" else "mp4") |}.

(** The [Save Result] button of a history item: [stopPropagation] keeps
    the click from the item's own handler, then the item's result is
    downloaded. *)
Definition saveResult_onClick (env : Env) (r : Session) (item : EditHistory)
  : Anchor :=
  downloadResult env r (edited item).

(** [item.type.charAt(0).toUpperCase() + item.type.slice(1)] *)
Definition capitalized (t : Tab) : string :=
  match t with TabImage => "Image" | TabVideo => "Video" end.

(** The title of the history item rendered at index [idx]. *)
Definition history_title (h : list EditHistory) (idx : nat)
  (item : EditHistory) : string :=
  capitalized (type item) ++ " Clean #"
  ++ show_Z (Z.of_nat (length h) - Z.of_nat idx).

(** The titles of the rendered history list, [history.map((item, idx) =>
    ...)], from index [idx] on. *)
Fixpoint history_titles_from (h : list EditHistory) (idx : nat)
  (items : list EditHistory) : list string :=
  match items with
  | [] => []
  | item :: items' =>
      history_title h idx item :: history_titles_from h (S idx) items'
  end.

Definition history_titles (h : list EditHistory) : list string :=
  history_titles_from h 0 h.

(** What the user can make the component do.  [ClickHistory idx] is a
    click on the item rendered at index [idx] of the history list.
    [OpenKeyDialog] is the key button of the header: its handler calls
    [window.aistudio.openSelectKey()] without awaiting it, so it has
    returned whatever the dialog answers. *)
Inductive Action :=
| SelectTab (t : Tab)
| SelectFile (file : option File)
| Process (fuel : nat)
| Discard
| ClickHistory (idx : nat)
| EditInstruction (txt : string)
| PickAspectRatio (a : AspectRatio)
| OpenKeyDialog.

Definition perform (env : Env) (a : Action) (r : Session) : M unit :=
  match a with
  | SelectTab t => selectTab t
  | SelectFile file => handleFileSelect env r file
  | Process fuel => handleProcess env fuel r
  | Discard => clearCurrent
  | ClickHistory idx =>
      match nth_error (history r) idx with
      | Some item => history_onClick item
      | None => ret tt
      end
  | EditInstruction txt => set (SetInstruction txt)
  | PickAspectRatio a => set (SetVideoAspectRatio a)
  | OpenKeyDialog => emit OpenSelectKey
  end.

(** How a handled action has left the session: the handler has returned
    or rejected; it is not still waiting. *)
Definition ends_in {A} (r : Res A) (s' : Session) : Prop :=
  match r with
  | Done _ s1 _ | Thrown _ s1 _ => s1 = s'
  | Diverged _ _ => False
  end.

(** The sessions the component can be in between two user actions when
    each action is handled to its end, in some world, before the next
    one is taken: no action falls into the wait of a run. *)
Inductive reachable : Session -> Prop :=
| reachable_initial : reachable initialSession
| reachable_step env a s s' :
    reachable s ->
    ends_in (run (perform env a) s) s' ->
    reachable s'.

(** The outcome [r] seen from the session [s]: the awaited calls of the
    generation client neither read nor write the session. *)
Definition relocate {A} (s : Session) (r : Res A) : Res A :=
  match r with
  | Done a _ t => Done a s t
  | Thrown f _ t => Thrown f s t
  | Diverged _ t => Diverged s t
  end.

(** Both assets of a history entry are non-empty. *)
Definition entry_filled (e : EditHistory) : Prop :=
  original e <> "" /\ edited e <> "".

(** What holds of a session between two user actions. *)
Definition rest_invariant (s : Session) : Prop :=
  isProcessing s = false /\
  Forall entry_filled (history s) /\
  (truthy (processedResult s) = true -> truthy (selectedFile s) = true).

(** A video job whose poll number [n + length ops - 1] is rejected with
    [f], after the polls before it found the job still running. *)
Inductive PollFail (env : Env)
  : nat -> Operation -> list Operation -> Fault -> Prop :=
| PollFail_now n op f :
    done op = false ->
    operations_getVideosOperation env n op = inl f ->
    PollFail env n op [op] f
| PollFail_later n op op' ops f :
    done op = false ->
    operations_getVideosOperation env n op = inr op' ->
    PollFail env (S n) op' ops f ->
    PollFail env n op (op :: ops) f.

Definition is_key_check (e : Event) : bool :=
  match e with HasSelectedApiKey => true | _ => false end.

Definition is_console_error (e : Event) : bool :=
  match e with ConsoleError _ _ => true | _ => false end.

(** The first part of an image request, as the client builds it. *)
Definition payload_sent (req : GenerateContentParameters) : option string :=
  match gc_parts req with
  | p :: _ =>
      match inlineData p with
      | Some b => data b
      | None => None
      end
  | [] => None
  end.

(** A service part holding inline data. *)
Definition inline_part (mime payload : option string) : Part :=
  {| inlineData := Some {| data := payload; blob_mimeType := mime |};
     text := None |}.

Definition text_part (t : string) : Part :=
  {| inlineData := None; text := Some t |}.

(** A world whose video job never finishes. *)
Definition env_stuck : Env :=
  sample_env (inr true) (inr edited_response) (inr job_pending) 0
    (fun op => inr op) reads_fine.

(** A world in which the second poll is rejected. *)
Definition env_poll_fails : Env :=
  sample_env (inr true) (inr edited_response) (inr job_pending) 2
    (fun _ => inl quota_fault) reads_fine.

(** A world without a build-time credential. *)
Definition env_no_credential : Env :=
  {| API_KEY := None;
     models_generateContent := fun _ => inr edited_response;
     models_generateVideos := fun _ => inr job_pending;
     operations_getVideosOperation :=
       fun _ op => inr (job_finished (Some video_link) op);
     aistudio_hasSelectedApiKey := inr true;
     aistudio_openSelectKey := fun _ => inr tt;
     FileReader_readAsDataURL := reads_fine;
     Date_now := 1700000000000 |}.

(** A world whose key host fails with the authentication marker and
    whose key dialog rejects. *)
Definition env_host_refuses : Env :=
  with_dialog (fun _ => inl dialog_fault)
    (sample_env (inl auth_fault) (inr edited_response) (inr job_pending) 1
       (fun op => inr (job_finished (Some video_link) op)) reads_fine).

(** The session after the example scenario's upload and processing. *)
Definition s_uploaded : Session :=
  final_state
    (run (perform env_ok (SelectFile (Some logo_file))) initialSession).

Definition s_processed : Session :=
  final_state (run (perform env_ok (Process 0)) s_uploaded).

Definition video_entry : EditHistory :=
  {| type := TabVideo; original := clip;
     edited := video_link ++ "&key=AIza-sample"; timestamp := 1690000000001 |}.

(** * Properties *)

(** ** JavaScript value conventions *)

Lemma truthy_Some (s : string) : truthy (Some s) = true <-> s <> "".
Proof.
  unfold truthy. rewrite negb_true_iff. apply String.eqb_neq.
Qed.

Lemma truthy_false_inv (v : option string) :
  truthy v = false -> v = None \/ v = Some "".
Proof.
  destruct v as [s|]; cbn; [|now left].
  rewrite negb_false_iff, String.eqb_eq. intros ->. now right.
Qed.

Lemma or_else_nonempty (v : option string) (d : string) :
  d <> "" -> or_else v d <> "".
Proof.
  intros Hd. destruct v as [s|]; cbn; [|exact Hd].
  destruct (String.eqb_spec s ""); assumption.
Qed.

Lemma or_else_Some (s d : string) : s <> "" -> or_else (Some s) d = s.
Proof.
  intros Hs. cbn. now apply String.eqb_neq in Hs as ->.
Qed.

Lemma or_else_key (k : string) : or_else (Some k) "" = k.
Proof.
  cbn. destruct (String.eqb_spec k ""); congruence.
Qed.

Lemma prefix_app (p s : string) : String.prefix p (p ++ s) = true.
Proof.
  induction p as [|c p IH]; cbn.
  - now destruct s.
  - destruct (ascii_dec c c); [exact IH|congruence].
Qed.

Lemma prefix_inv (p s : string) :
  String.prefix p s = true -> exists r, s = p ++ r.
Proof.
  revert s. induction p as [|c p IH]; intros s H.
  - now exists s.
  - destruct s as [|d s]; cbn in H; [discriminate|].
    destruct (ascii_dec c d) as [->|]; [|discriminate].
    destruct (IH _ H) as [r ->]. now exists r.
Qed.

(** [includes] is the substring test. *)
Lemma includes_spec (s p : string) :
  includes s p = true <-> exists a b, s = a ++ p ++ b.
Proof.
  split.
  - induction s as [|c s IH]; cbn [includes]; rewrite orb_true_iff.
    + intros [H|H]; [|discriminate].
      apply prefix_inv in H as [r ->]. now exists "", r.
    + intros [H|H].
      * apply prefix_inv in H as [r ->]. now exists "", r.
      * destruct (IH H) as (a & b & ->). now exists (String c a), b.
  - intros (a & b & ->). induction a as [|c a IH].
    + cbn [append]. destruct (p ++ b) eqn:E; cbn [includes];
        rewrite <- E, prefix_app; reflexivity.
    + cbn [append includes]. rewrite IH. apply orb_true_r.
Qed.

Lemma first_inline_nonempty (ps : list Part) (r : string) :
  first_inline ps = Some r -> r <> "".
Proof.
  induction ps as [|p ps IH]; cbn; [discriminate|].
  destruct (inlineData p); [|exact IH].
  intros [= <-]. discriminate.
Qed.

Lemma first_inline_None (ps : list Part) :
  first_inline ps = None <-> Forall (fun p => inlineData p = None) ps.
Proof.
  induction ps as [|p ps IH]; cbn.
  - split; [constructor|reflexivity].
  - destruct (inlineData p) eqn:E.
    + split; [discriminate|]. intros H. inversion H; congruence.
    + rewrite IH. split; [now constructor|]. intros H. now inversion H.
Qed.

Lemma failure_message_nonempty (t : Tab) : failure_message t <> "".
Proof. destruct t; discriminate. Qed.

(** ** Traces *)

Lemma filter_excluded (p q : Event -> bool) (t : Trace) :
  (forall e, q e = true -> p e = false) ->
  Forall (fun e => q e = true) t ->
  filter p t = [].
Proof.
  intros Hpq. induction 1 as [|e t He _ IH]; cbn; [reflexivity|].
  now rewrite (Hpq _ He).
Qed.

Lemma filter_narrower (p q : Event -> bool) (t : Trace) :
  (forall e, p e = true -> q e = true) ->
  filter q t = [] -> filter p t = [].
Proof.
  intros Hpq. induction t as [|e t IH]; cbn; [reflexivity|].
  destruct (q e) eqn:Hq; [discriminate|].
  destruct (p e) eqn:Hp; [apply Hpq in Hp; congruence|]. exact IH.
Qed.


Lemma count_prompts_app (t u : Trace) :
  count_prompts (t ++ u)%list = count_prompts t + count_prompts u.
Proof.
  unfold count_prompts. now rewrite filter_app, length_app.
Qed.

Lemma polled_app (t u : Trace) :
  polled (t ++ u)%list = (polled t ++ polled u)%list.
Proof.
  induction t as [|e t IH]; cbn; [reflexivity|].
  destruct e; cbn; now rewrite ?IH.
Qed.

Lemma polled_poll_events (ops : list Operation) :
  polled (poll_events ops) = ops.
Proof.
  induction ops as [|op ops IH]; cbn; [reflexivity|].
  fold (poll_events ops). now rewrite IH.
Qed.

Lemma poll_events_length (ops : list Operation) :
  length (poll_events ops) = 2 * length ops.
Proof.
  induction ops as [|op ops IH]; cbn [poll_events flat_map length app];
    [reflexivity|].
  fold (poll_events ops). rewrite IH. lia.
Qed.

(** ** The handler monad *)

Lemma bind_assoc {A B C} (m : M A) (k : A -> M B) (h : B -> M C) (s : Session) :
  bind (bind m k) h s = bind m (fun a => bind (k a) h) s.
Proof.
  unfold bind. destruct (m s) as [a s1 t1|f s1 t1|s1 t1]; [|reflexivity..].
  destruct (k a s1) as [b s2 t2|f s2 t2|s2 t2]; [|reflexivity..].
  destruct (h b s2) as [c s3 t3|f s3 t3|s3 t3]; now rewrite app_assoc.
Qed.

(** ** services/gemini *)

Section GeminiFacts.

Variable env : Env.

Lemma PollRun_finished n op ops opf :
  PollRun env n op ops opf -> done opf = true.
Proof. induction 1; assumption. Qed.

Lemma PollRun_pending n op ops opf :
  PollRun env n op ops opf -> Forall (fun o => done o = false) ops.
Proof. induction 1; constructor; assumption. Qed.

(** The first poll is handed the submitted operation, each later one the
    answer of the poll before it. *)
Lemma PollRun_chain n op ops opf :
  PollRun env n op ops opf ->
  forall i o, nth_error ops i = Some o ->
    match i with
    | O => o = op
    | S j => exists o', nth_error ops j = Some o' /\
                        operations_getVideosOperation env (n + j) o' = inr o
    end.
Proof.
  induction 1 as [n op Hd|n op op' ops opf Hd Hp Hrun IH]; intros i o Hi.
  - destruct i; discriminate.
  - destruct i as [|[|j]]; cbn in Hi.
    + congruence.
    + exists op. rewrite Nat.add_0_r. split; [reflexivity|].
      specialize (IH 0 o Hi). cbn in IH. now subst.
    + destruct (IH (S j) o Hi) as (o' & Hj & Ho').
      exists o'. split; [exact Hj|].
      now replace (n + S j) with (S n + j) by lia.
Qed.

(** When the service answers a poll with the handle it was asked about,
    every poll of a run carries the handle of the submission. *)
Lemma PollRun_names n op ops opf :
  (forall k o o', operations_getVideosOperation env k o = inr o' ->
                  name o' = name o) ->
  PollRun env n op ops opf ->
  Forall (fun o => name o = name op) ops /\ name opf = name op.
Proof.
  intros Hname. induction 1 as [n op Hd|n op op' ops opf Hd Hp Hrun IH].
  - split; [constructor|reflexivity].
  - destruct IH as [IH1 IH2]. rewrite (Hname _ _ _ Hp) in IH1, IH2.
    split; [constructor; [reflexivity|exact IH1]|exact IH2].
Qed.

(** Enough iterations let the loop return the finished operation. *)
Lemma poll_loop_run n op ops opf :
  PollRun env n op ops opf ->
  forall fuel s, length ops <= fuel ->
    poll_loop env fuel n op s = Done opf s (poll_events ops).
Proof.
  induction 1 as [n op Hd|n op op' ops opf Hd Hp Hrun IH]; intros fuel s Hf.
  - destruct fuel; cbn; now rewrite Hd.
  - destruct fuel as [|fuel]; cbn in Hf; [lia|].
    cbn [poll_loop]. rewrite Hd.
    unfold bind, await, emit, ret. cbn. rewrite Hp. cbn.
    fold (poll_events ops).
    now rewrite (IH fuel s ltac:(lia)).
Qed.

(** With too few iterations the model is still waiting. *)
Lemma poll_loop_short n op ops opf :
  PollRun env n op ops opf ->
  forall fuel s, fuel < length ops ->
    exists t, poll_loop env fuel n op s = Diverged s t.
Proof.
  induction 1 as [n op Hd|n op op' ops opf Hd Hp Hrun IH]; intros fuel s Hf.
  - cbn in Hf. lia.
  - destruct fuel as [|fuel]; cbn [poll_loop]; rewrite Hd.
    + now eexists.
    + cbn in Hf. destruct (IH fuel s ltac:(lia)) as [t Ht].
      unfold bind, await, emit, ret. cbn. rewrite Hp. cbn. rewrite Ht.
      now eexists.
Qed.

Lemma poll_loop_state fuel : forall n op s,
  final_state (poll_loop env fuel n op s) = s.
Proof.
  induction fuel as [|fuel IH]; intros n op s; cbn [poll_loop];
    destruct (done op); try reflexivity.
  unfold bind, await, emit, ret, throw. cbn.
  destruct (operations_getVideosOperation env n op) as [f|op']; cbn;
    [reflexivity|].
  specialize (IH (S n) op' s).
  destruct (poll_loop env fuel (S n) op' s); exact IH.
Qed.

Lemma poll_loop_events fuel : forall n op s,
  Forall (fun e => after_submit_event e = true)
         (trace_of (poll_loop env fuel n op s)).
Proof.
  induction fuel as [|fuel IH]; intros n op s; cbn [poll_loop];
    destruct (done op); try (cbn; constructor).
  unfold bind, await, emit, ret, throw. cbn.
  destruct (operations_getVideosOperation env n op) as [f|op']; cbn;
    [repeat constructor|].
  specialize (IH (S n) op' s).
  destruct (poll_loop env fuel (S n) op' s); cbn in *;
    repeat (constructor; [reflexivity|]); exact IH.
Qed.

Lemma removeWatermarkFromImage_ok b m i resp s :
  models_generateContent env (image_request b m i) = inr resp ->
  removeWatermarkFromImage env b m i s
  = Done (first_inline (response_parts resp)) s
      [Call_removeWatermarkFromImage b m i;
       NewGoogleGenAI (or_else (API_KEY env) "");
       GenerateContent (image_request b m i)].
Proof.
  intros H. unfold removeWatermarkFromImage, bind, try_catch, await,
    emit, ret, throw. now rewrite H.
Qed.

Lemma removeWatermarkFromImage_fault b m i f s :
  models_generateContent env (image_request b m i) = inl f ->
  removeWatermarkFromImage env b m i s
  = Thrown f s
      [Call_removeWatermarkFromImage b m i;
       NewGoogleGenAI (or_else (API_KEY env) "");
       GenerateContent (image_request b m i);
       ConsoleError (Some "Gemini API Error:") f].
Proof.
  intros H. unfold removeWatermarkFromImage, bind, try_catch, await,
    emit, ret, throw. now rewrite H.
Qed.

(** The image edit never touches the session; it is invoked, builds a
    client, submits its one request, and at most logs a fault. *)
Lemma removeWatermarkFromImage_shape b m i s :
  final_state (removeWatermarkFromImage env b m i s) = s /\
  exists rest,
    trace_of (removeWatermarkFromImage env b m i s)
    = Call_removeWatermarkFromImage b m i
      :: NewGoogleGenAI (or_else (API_KEY env) "")
      :: GenerateContent (image_request b m i) :: rest /\
    Forall (fun e => after_submit_event e = true) rest.
Proof.
  destruct (models_generateContent env (image_request b m i)) as [f|resp] eqn:E.
  - rewrite (removeWatermarkFromImage_fault _ _ _ _ _ E). cbn.
    split; [reflexivity|]. eexists. split; [reflexivity|].
    repeat constructor.
  - rewrite (removeWatermarkFromImage_ok _ _ _ _ _ E). cbn.
    split; [reflexivity|]. eexists. split; [reflexivity|].
    repeat constructor.
Qed.

(** The value [processVideoWatermark] returns for a finished operation. *)
Lemma processVideoWatermark_ok fuel prompt a op0 ops opf s :
  models_generateVideos env (video_request prompt a) = inr op0 ->
  PollRun env 0 op0 ops opf ->
  length ops <= fuel ->
  processVideoWatermark env fuel prompt a s
  = Done (if negb (truthy (downloadLink opf)) then None
          else Some (template (downloadLink opf) ++ "&key="
                       ++ template (API_KEY env)))
      s
      (Call_processVideoWatermark prompt a
       :: NewGoogleGenAI (or_else (API_KEY env) "")
       :: GenerateVideos (video_request prompt a)
       :: poll_events ops).
Proof.
  intros Hsub Hrun Hfuel.
  unfold processVideoWatermark, bind, try_catch, await, emit, ret, throw.
  rewrite Hsub. cbn. rewrite (poll_loop_run _ _ _ _ Hrun fuel s Hfuel).
  destruct (negb (truthy (downloadLink opf))); cbn;
    now rewrite app_nil_r.
Qed.

(** The video generation never touches the session; it is invoked,
    builds a client, submits its one request, and then only waits, polls
    and at most logs a fault. *)
Lemma processVideoWatermark_shape fuel prompt a s :
  final_state (processVideoWatermark env fuel prompt a s) = s /\
  exists rest,
    trace_of (processVideoWatermark env fuel prompt a s)
    = Call_processVideoWatermark prompt a
      :: NewGoogleGenAI (or_else (API_KEY env) "")
      :: GenerateVideos (video_request prompt a) :: rest /\
    Forall (fun e => after_submit_event e = true) rest.
Proof.
  unfold processVideoWatermark, bind, try_catch, await, emit, ret, throw.
  destruct (models_generateVideos env (video_request prompt a)) as [f|op0];
    cbn.
  - split; [reflexivity|]. eexists. split; [reflexivity|].
    repeat constructor.
  - pose proof (poll_loop_state fuel 0 op0 s) as Hs.
    pose proof (poll_loop_events fuel 0 op0 s) as Ht.
    destruct (poll_loop env fuel 0 op0 s) as [opf s1 t1|f s1 t1|s1 t1];
      cbn in Hs, Ht; subst s1.
    + destruct (negb (truthy (downloadLink opf))); cbn;
        (split; [reflexivity|]); eexists; (split; [reflexivity|]);
        rewrite app_nil_r; exact Ht.
    + cbn. split; [reflexivity|]. eexists. split; [reflexivity|].
      apply Forall_app. split; [exact Ht|repeat constructor].
    + cbn. split; [reflexivity|]. eexists. split; [reflexivity|].
      exact Ht.
Qed.

End GeminiFacts.

(** ** App.tsx: the pieces of a processing run *)

Section AppFacts.

Variable env : Env.

Lemma Tab_eqb_eq (a b : Tab) : Tab_eqb a b = true <-> a = b.
Proof. destruct a, b; cbn; split; congruence. Qed.

Lemma checkAndPromptKey_state r s :
  final_state (checkAndPromptKey env r s) = s.
Proof.
  unfold checkAndPromptKey, bind, await, emit, ret, throw.
  destruct (Tab_eqb (activeTab r) TabVideo); [|reflexivity].
  destruct (aistudio_hasSelectedApiKey env) as [f|[|]]; try reflexivity.
  cbn. now destruct (aistudio_openSelectKey env 0).
Qed.

Lemma checkAndPromptKey_prompts r s :
  count_prompts (trace_of (checkAndPromptKey env r s))
  = pre_dispatch_prompts env r.
Proof.
  unfold checkAndPromptKey, pre_dispatch_prompts, bind, await, emit, ret,
    throw.
  destruct (Tab_eqb (activeTab r) TabVideo); [|reflexivity].
  destruct (aistudio_hasSelectedApiKey env) as [f|[|]]; try reflexivity.
  cbn. now destruct (aistudio_openSelectKey env 0).
Qed.

(** The [try] block is the awaited generation followed by the handling
    of its result. *)
Lemma handleProcess_try_split fuel r src s :
  handleProcess_try env fuel r src s
  = bind (generation env fuel r src) (store_result env r src) s.
Proof.
  unfold handleProcess_try, generation, store_result, failure_message.
  destruct (activeTab r) eqn:E; cbn [Tab_eqb].
  - reflexivity.
  - now rewrite bind_assoc.
Qed.

Lemma store_result_failure r src result s :
  truthy result = false ->
  store_result env r src result s
  = Done tt (apply_setter (SetError (Some (failure_message (activeTab r)))) s)
      [Set_ (SetError (Some (failure_message (activeTab r))))].
Proof.
  intros H. apply truthy_false_inv in H as [->| ->]; reflexivity.
Qed.

Lemma store_result_success r src res s :
  res <> "" ->
  store_result env r src (Some res) s
  = Done tt
      (apply_setter
         (PrependHistory {| type := activeTab r; original := src;
                            edited := res; timestamp := Date_now env |})
         (apply_setter (SetProcessedResult (Some res)) s))
      [Set_ (SetProcessedResult (Some res));
       Set_ (PrependHistory {| type := activeTab r; original := src;
                               edited := res; timestamp := Date_now env |})].
Proof.
  intros H. unfold store_result. apply String.eqb_neq in H as ->.
  reflexivity.
Qed.

Lemma handleProcess_catch_auth seen f s :
  is_auth_fault f = true ->
  aistudio_openSelectKey env (count_prompts seen) = inr tt ->
  handleProcess_catch env seen f s
  = Done tt (apply_setter (SetError (Some api_key_message)) s)
      [OpenSelectKey; Set_ (SetError (Some api_key_message));
       ConsoleError None f].
Proof.
  unfold handleProcess_catch. intros -> Hopen.
  unfold bind, await, emit, ret, throw, set. now rewrite Hopen.
Qed.

(** When the dialog rejects, the block ends there. *)
Lemma handleProcess_catch_rejected seen f g s :
  is_auth_fault f = true ->
  aistudio_openSelectKey env (count_prompts seen) = inl g ->
  handleProcess_catch env seen f s = Thrown g s [OpenSelectKey].
Proof.
  unfold handleProcess_catch. intros -> Hopen.
  unfold bind, await, emit, ret, throw, set. now rewrite Hopen.
Qed.

Lemma handleProcess_catch_other seen f s :
  is_auth_fault f = false ->
  handleProcess_catch env seen f s
  = Done tt
      (apply_setter (SetError (Some (or_else (message f) fallback_message))) s)
      [Set_ (SetError (Some (or_else (message f) fallback_message)));
       ConsoleError None f].
Proof.
  unfold handleProcess_catch. intros ->. reflexivity.
Qed.

(** The events of the key check of a video run. *)
Lemma key_check_events_prompts r :
  activeTab r = TabVideo ->
  count_prompts
    match aistudio_hasSelectedApiKey env with
    | inl _ => [HasSelectedApiKey]
    | inr hasKey => HasSelectedApiKey :: if hasKey then [] else [OpenSelectKey]
    end
  = pre_dispatch_prompts env r.
Proof.
  intros Htab. unfold pre_dispatch_prompts. rewrite Htab. cbn [Tab_eqb].
  now destruct (aistudio_hasSelectedApiKey env) as [f|[|]].
Qed.

(** The generation step: the key check of video mode, then, when the
    check lets the run go on, the client; it leaves the session as it
    found it. *)
Lemma generation_shape fuel r src s :
  final_state (generation env fuel r src s) = s /\
  exists rest,
    Forall (fun e => after_submit_event e = true) rest /\
    trace_of (generation env fuel r src s)
    = match activeTab r with
      | TabImage =>
          Call_removeWatermarkFromImage src (mimeType r) (instruction r)
          :: NewGoogleGenAI (or_else (API_KEY env) "")
          :: GenerateContent
               (image_request src (mimeType r) (instruction r))
          :: rest
      | TabVideo =>
          match aistudio_hasSelectedApiKey env with
          | inl _ => [HasSelectedApiKey]
          | inr hasKey =>
              (HasSelectedApiKey
               :: if hasKey then [] else [OpenSelectKey])
              ++ (if key_check_passes env then
                    Call_processVideoWatermark (instruction r)
                      (videoAspectRatio r)
                    :: NewGoogleGenAI (or_else (API_KEY env) "")
                    :: GenerateVideos
                         (video_request (instruction r) (videoAspectRatio r))
                    :: rest
                  else [])
          end
      end%list.
Proof.
  unfold generation, checkAndPromptKey, key_check_passes.
  destruct (activeTab r); cbn [Tab_eqb].
  - destruct (removeWatermarkFromImage_shape env src (mimeType r)
                (instruction r) s) as (Hs & rest & Ht & Hrest).
    split; [exact Hs|]. now exists rest.
  - unfold bind, await, emit, ret, throw.
    destruct (processVideoWatermark_shape env fuel (instruction r)
                (videoAspectRatio r) s) as (Hs & rest & Ht & Hrest).
    destruct (aistudio_hasSelectedApiKey env) as [f|[|]];
      cbn -[processVideoWatermark].
    + split; [reflexivity|]. exists []. now split.
    + destruct (processVideoWatermark env fuel (instruction r)
                  (videoAspectRatio r) s); cbn in *; subst;
        (split; [reflexivity|]); now exists rest.
    + destruct (aistudio_openSelectKey env 0) as [g|[]];
        cbn -[processVideoWatermark].
      * split; [reflexivity|]. exists []. now split.
      * destruct (processVideoWatermark env fuel (instruction r)
                    (videoAspectRatio r) s); cbn in *; subst;
          (split; [reflexivity|]); now exists rest.
Qed.

Lemma generation_state fuel r src s :
  final_state (generation env fuel r src s) = s.
Proof. apply generation_shape. Qed.

(** A filter that rejects waits, polls and fault logs sees only the head
    of the generation trace. *)
Lemma generation_filter (p : Event -> bool) fuel r src s :
  (forall e, after_submit_event e = true -> p e = false) ->
  filter p (trace_of (generation env fuel r src s))
  = filter p
      match activeTab r with
      | TabImage =>
          [Call_removeWatermarkFromImage src (mimeType r) (instruction r);
           NewGoogleGenAI (or_else (API_KEY env) "");
           GenerateContent (image_request src (mimeType r) (instruction r))]
      | TabVideo =>
          match aistudio_hasSelectedApiKey env with
          | inl _ => [HasSelectedApiKey]
          | inr hasKey =>
              (HasSelectedApiKey
               :: if hasKey then [] else [OpenSelectKey])
              ++ (if key_check_passes env then
                    [Call_processVideoWatermark (instruction r)
                       (videoAspectRatio r);
                     NewGoogleGenAI (or_else (API_KEY env) "");
                     GenerateVideos
                       (video_request (instruction r) (videoAspectRatio r))]
                  else [])
          end
      end%list.
Proof.
  intros Hp.
  destruct (generation_shape fuel r src s) as (_ & rest & Hrest & ->).
  pose proof (filter_excluded p _ rest Hp Hrest) as Hnil.
  destruct (activeTab r).
  - change (?a :: ?b :: ?c :: rest) with ([a; b; c] ++ rest)%list.
    now rewrite filter_app, Hnil, app_nil_r.
  - destruct (aistudio_hasSelectedApiKey env) as [f|hasKey]; [reflexivity|].
    destruct (key_check_passes env); [|reflexivity].
    change (?a :: ?b :: ?c :: rest) with ([a; b; c] ++ rest)%list.
    now rewrite !filter_app, Hnil, app_nil_r.
Qed.

(** It calls no setter. *)
Lemma generation_no_setter fuel r src s :
  filter is_setter (trace_of (generation env fuel r src s)) = [].
Proof.
  rewrite generation_filter by now intros [].
  destruct (activeTab r); [reflexivity|].
  destruct (aistudio_hasSelectedApiKey env) as [f|[|]];
    now destruct (key_check_passes env).
Qed.

(** It prompts for a key only in the key check of video mode. *)
Lemma generation_prompts fuel r src s :
  count_prompts (trace_of (generation env fuel r src s))
  = pre_dispatch_prompts env r.
Proof.
  unfold count_prompts, pre_dispatch_prompts.
  rewrite generation_filter by now intros [].
  destruct (activeTab r); [reflexivity|]. cbn [Tab_eqb].
  destruct (aistudio_hasSelectedApiKey env) as [f|[|]];
    now destruct (key_check_passes env).
Qed.

(** Client invocations made by the generation step. *)
Lemma generation_client_calls fuel r src s :
  filter is_client_call (trace_of (generation env fuel r src s))
  = match activeTab r with
    | TabImage =>
        [Call_removeWatermarkFromImage src (mimeType r) (instruction r)]
    | TabVideo =>
        if key_check_passes env then
          [Call_processVideoWatermark (instruction r) (videoAspectRatio r)]
        else []
    end.
Proof.
  rewrite generation_filter by now intros [].
  destruct (activeTab r); [reflexivity|]. unfold key_check_passes.
  destruct (aistudio_hasSelectedApiKey env) as [f|[|]]; try reflexivity.
  now destruct (aistudio_openSelectKey env 0).
Qed.

(** Work submitted to the service by the generation step. *)
Lemma generation_submissions fuel r src s :
  filter is_submission (trace_of (generation env fuel r src s))
  = match activeTab r with
    | TabImage =>
        [GenerateContent (image_request src (mimeType r) (instruction r))]
    | TabVideo =>
        if key_check_passes env then
          [GenerateVideos
             (video_request (instruction r) (videoAspectRatio r))]
        else []
    end.
Proof.
  rewrite generation_filter by now intros [].
  destruct (activeTab r); [reflexivity|]. unfold key_check_passes.
  destruct (aistudio_hasSelectedApiKey env) as [f|[|]]; try reflexivity.
  now destruct (aistudio_openSelectKey env 0).
Qed.

(** The key check passes exactly when the host answers the key query
    and the dialog, if it is needed, resolves. *)
Lemma key_check_passes_iff :
  key_check_passes env = true <->
  exists hasKey,
    aistudio_hasSelectedApiKey env = inr hasKey /\
    (hasKey = false -> aistudio_openSelectKey env 0 = inr tt).
Proof.
  unfold key_check_passes.
  destruct (aistudio_hasSelectedApiKey env) as [f|[|]].
  - split; [discriminate|]. now intros (b & [=] & _).
  - split; [|reflexivity]. intros _. exists true. now split.
  - destruct (aistudio_openSelectKey env 0) as [g|[]].
    + split; [discriminate|]. intros (b & [= <-] & H). now specialize (H eq_refl).
    + split; [|reflexivity]. intros _. exists false. now split.
Qed.

End AppFacts.

(** ** App.tsx: the outcomes of [handleProcess] *)

Ltac enter_handleProcess Hsel Hne :=
  unfold run, handleProcess; rewrite Hsel;
  let E := fresh "E" in
  pose proof Hne as E; apply String.eqb_neq in E; rewrite E; clear E;
  unfold handleProcess_statement, bind, set, try_finally, try_catch_seen;
  cbn -[handleProcess_try handleProcess_catch apply_setter];
  rewrite handleProcess_try_split; unfold bind;
  match goal with
  | |- context [generation ?e ?f ?r ?x ?st] =>
      change st with (dispatched r)
  end.

Section HandleProcessFacts.

Variable env : Env.
Variable fuel : nat.
Variables (s : Session) (src : string).
Hypothesis Hsel : selectedFile s = Some src.
Hypothesis Hne : src <> "".

Lemma handleProcess_success res s1 t1 :
  generation env fuel s src (dispatched s) = Done (Some res) s1 t1 ->
  res <> "" ->
  run (handleProcess env fuel) s
  = Done tt
      (apply_setter (SetIsProcessing false)
         (apply_setter
            (PrependHistory {| type := activeTab s; original := src;
                               edited := res; timestamp := Date_now env |})
            (apply_setter (SetProcessedResult (Some res)) (dispatched s))))
      (dispatch_events ++ t1 ++
       [Set_ (SetProcessedResult (Some res));
        Set_ (PrependHistory {| type := activeTab s; original := src;
                                edited := res; timestamp := Date_now env |});
        Set_ (SetIsProcessing false)])%list.
Proof.
  intros Hgen Hres.
  pose proof (generation_state env fuel s src (dispatched s)) as Hst.
  rewrite Hgen in Hst. cbn in Hst. subst s1.
  enter_handleProcess Hsel Hne. rewrite Hgen.
  rewrite (store_result_success env s src res _ Hres).
  cbn -[apply_setter]. now rewrite <- app_assoc.
Qed.

Lemma handleProcess_empty result s1 t1 :
  generation env fuel s src (dispatched s) = Done result s1 t1 ->
  truthy result = false ->
  run (handleProcess env fuel) s
  = Done tt
      (apply_setter (SetIsProcessing false)
         (apply_setter (SetError (Some (failure_message (activeTab s))))
            (dispatched s)))
      (dispatch_events ++ t1 ++
       [Set_ (SetError (Some (failure_message (activeTab s))));
        Set_ (SetIsProcessing false)])%list.
Proof.
  intros Hgen Hres.
  pose proof (generation_state env fuel s src (dispatched s)) as Hst.
  rewrite Hgen in Hst. cbn in Hst. subst s1.
  enter_handleProcess Hsel Hne. rewrite Hgen.
  rewrite (store_result_failure env s src result _ Hres).
  cbn -[apply_setter]. now rewrite <- app_assoc.
Qed.

Lemma handleProcess_auth f s1 t1 :
  generation env fuel s src (dispatched s) = Thrown f s1 t1 ->
  is_auth_fault f = true ->
  aistudio_openSelectKey env (count_prompts t1) = inr tt ->
  run (handleProcess env fuel) s
  = Done tt
      (apply_setter (SetIsProcessing false)
         (apply_setter (SetError (Some api_key_message)) (dispatched s)))
      (dispatch_events ++ t1 ++
       [OpenSelectKey; Set_ (SetError (Some api_key_message));
        ConsoleError None f; Set_ (SetIsProcessing false)])%list.
Proof.
  intros Hgen Hf Hopen.
  pose proof (generation_state env fuel s src (dispatched s)) as Hst.
  rewrite Hgen in Hst. cbn in Hst. subst s1.
  enter_handleProcess Hsel Hne. rewrite Hgen.
  rewrite (handleProcess_catch_auth env t1 f _ Hf Hopen).
  cbn -[apply_setter]. now rewrite <- app_assoc.
Qed.

(** The dialog of the [catch] block rejects: the handler rejects with
    that fault, after the [finally] block; no message is set. *)
Lemma handleProcess_auth_rejected f g s1 t1 :
  generation env fuel s src (dispatched s) = Thrown f s1 t1 ->
  is_auth_fault f = true ->
  aistudio_openSelectKey env (count_prompts t1) = inl g ->
  run (handleProcess env fuel) s
  = Thrown g
      (apply_setter (SetIsProcessing false) (dispatched s))
      (dispatch_events ++ t1 ++
       [OpenSelectKey; Set_ (SetIsProcessing false)])%list.
Proof.
  intros Hgen Hf Hopen.
  pose proof (generation_state env fuel s src (dispatched s)) as Hst.
  rewrite Hgen in Hst. cbn in Hst. subst s1.
  enter_handleProcess Hsel Hne. rewrite Hgen.
  rewrite (handleProcess_catch_rejected env t1 f g _ Hf Hopen).
  cbn -[apply_setter]. now rewrite <- app_assoc.
Qed.

Lemma handleProcess_other f s1 t1 :
  generation env fuel s src (dispatched s) = Thrown f s1 t1 ->
  is_auth_fault f = false ->
  run (handleProcess env fuel) s
  = Done tt
      (apply_setter (SetIsProcessing false)
         (apply_setter
            (SetError (Some (or_else (message f) fallback_message)))
            (dispatched s)))
      (dispatch_events ++ t1 ++
       [Set_ (SetError (Some (or_else (message f) fallback_message)));
        ConsoleError None f; Set_ (SetIsProcessing false)])%list.
Proof.
  intros Hgen Hf.
  pose proof (generation_state env fuel s src (dispatched s)) as Hst.
  rewrite Hgen in Hst. cbn in Hst. subst s1.
  enter_handleProcess Hsel Hne. rewrite Hgen.
  rewrite (handleProcess_catch_other env t1 f _ Hf).
  cbn -[apply_setter]. now rewrite <- app_assoc.
Qed.

(** While the poll loop has not finished, the run is still processing:
    neither the [catch] nor the [finally] block has run. *)
Lemma handleProcess_waiting s1 t1 :
  generation env fuel s src (dispatched s) = Diverged s1 t1 ->
  run (handleProcess env fuel) s = Diverged (dispatched s) (dispatch_events ++ t1)%list.
Proof.
  intros Hgen.
  pose proof (generation_state env fuel s src (dispatched s)) as Hst.
  rewrite Hgen in Hst. cbn in Hst. subst s1.
  enter_handleProcess Hsel Hne. now rewrite Hgen.
Qed.

End HandleProcessFacts.


(** Every run consists of the two opening setter calls, the generation
    step, and a closing part that never resets the result. *)
Lemma handleProcess_trace env fuel s src :
  selectedFile s = Some src -> src <> "" ->
  exists tail,
    trace_of (run (handleProcess env fuel) s)
    = (dispatch_events
       ++ trace_of (generation env fuel s src (dispatched s)) ++ tail)%list /\
    Forall (fun e => closing_event e = true) tail /\
    ~ In (Set_ (SetProcessedResult None)) tail.
Proof.
  intros Hsel Hne.
  destruct (generation env fuel s src (dispatched s))
    as [result s1 t1|f s1 t1|s1 t1] eqn:Hgen.
  - destruct result as [res|].
    + destruct (String.eqb_spec res "") as [->|Hres].
      * rewrite (handleProcess_empty env fuel s src Hsel Hne _ _ _ Hgen eq_refl).
        eexists. split; [reflexivity|]. split; [repeat constructor|].
        intros [H|[H|[]]]; discriminate.
      * rewrite (handleProcess_success env fuel s src Hsel Hne _ _ _ Hgen Hres).
        eexists. split; [reflexivity|]. split; [repeat constructor|].
        intros [H|[H|[H|[]]]]; discriminate.
    + rewrite (handleProcess_empty env fuel s src Hsel Hne _ _ _ Hgen eq_refl).
      eexists. split; [reflexivity|]. split; [repeat constructor|].
      intros [H|[H|[]]]; discriminate.
  - destruct (is_auth_fault f) eqn:Hf.
    + destruct (aistudio_openSelectKey env (count_prompts t1)) as [g|[]]
        eqn:Hopen.
      * rewrite (handleProcess_auth_rejected env fuel s src Hsel Hne _ _ _ _
                   Hgen Hf Hopen).
        eexists. split; [reflexivity|]. split; [repeat constructor|].
        intros [H|[H|[]]]; discriminate.
      * rewrite (handleProcess_auth env fuel s src Hsel Hne _ _ _ Hgen Hf
                   Hopen).
        eexists. split; [reflexivity|]. split; [repeat constructor|].
        intros [H|[H|[H|[H|[]]]]]; discriminate.
    + rewrite (handleProcess_other env fuel s src Hsel Hne _ _ _ Hgen Hf).
      eexists. split; [reflexivity|]. split; [repeat constructor|].
      intros [H|[H|[H|[]]]]; discriminate.
  - rewrite (handleProcess_waiting env fuel s src Hsel Hne _ _ Hgen).
    exists []. cbn [trace_of]. rewrite app_nil_r.
    split; [reflexivity|]. split; [constructor|]. intros [].
Qed.

(** A filter that rejects the closing events and the opening setter
    calls sees only the generation step of a run. *)
Lemma handleProcess_filter (p : Event -> bool) env fuel s src :
  selectedFile s = Some src -> src <> "" ->
  (forall e, closing_event e = true -> p e = false) ->
  filter p (trace_of (run (handleProcess env fuel) s))
  = filter p (trace_of (generation env fuel s src (dispatched s))).
Proof.
  intros Hsel Hne Hp.
  destruct (handleProcess_trace env fuel s src Hsel Hne)
    as (tail & -> & Htail & _).
  rewrite !filter_app, (filter_excluded p _ tail Hp Htail), app_nil_r.
  cbn. now rewrite !Hp.
Qed.

(** ** The example scenario of the specification

    In image mode the user selects [logo.png], starts processing, and
    discards: the source is set, then the result is set and the history
    holds one entry, then source, result and error are empty and the
    history still holds that entry. *)
Example scenario_select_process_discard :
  let s1 := final_state
              (run (fun r => handleFileSelect env_ok r (Some logo_file))
                   initialSession) in
  let s2 := final_state (run (handleProcess env_ok 0) s1) in
  let s3 := final_state (run (fun _ => clearCurrent) s2) in
  (selectedFile s1 = Some photo /\ processedResult s1 = None) /\
  (processedResult s2 = Some "data:image/png;base64,QkJCQg==" /\
   history s2 = [ {| type := TabImage; original := photo;
                     edited := "data:image/png;base64,QkJCQg==";
                     timestamp := Date_now env_ok |} ]) /\
  (selectedFile s3 = None /\ processedResult s3 = None /\
   error s3 = None /\ history s3 = history s2).
Proof. repeat split. Qed.

(** Switching tab clears source, result and error and keeps the
    history. *)
Lemma selectTab_clears t s :
  let s' := final_state (run (fun _ => selectTab t) s) in
  activeTab s' = t /\ selectedFile s' = None /\ processedResult s' = None /\
  error s' = None /\ history s' = history s.
Proof. repeat split. Qed.

(** ** The guard of a processing run *)

(** C1: [startProcessing] is the activation of the start button, the
    only caller of [handleProcess].  For every session, activating it
    when the source is empty or when processing is already true changes
    no session state and issues no call at all: the button is not
    rendered without a source and is disabled while [isProcessing]
    holds.  The guard on the source is also the first statement of
    [handleProcess] itself. *)
Theorem startProcessing_guard env fuel s :
  truthy (selectedFile s) = false \/ isProcessing s = true ->
  run (startButton_click env fuel) s = Done tt s [] /\
  (truthy (selectedFile s) = false ->
   run (handleProcess env fuel) s = Done tt s []).
Proof.
  intros H. split.
  - unfold run, startButton_click, editor_rendered, startButton_disabled.
    destruct H as [-> | ->]; [reflexivity|].
    now rewrite andb_false_r.
  - clear H. intros H. unfold run, handleProcess.
    apply truthy_false_inv in H as [-> | ->]; reflexivity.
Qed.

Lemma startProcessing_guard_witness :
  (isProcessing s_busy = true /\
   run (startButton_click env_ok 5) s_busy = Done tt s_busy []) /\
  (truthy (selectedFile initialSession) = false /\
   run (startButton_click env_ok 5) initialSession
   = Done tt initialSession [] /\
   run (handleProcess env_ok 5) initialSession = Done tt initialSession []).
Proof.
  split.
  - split; [reflexivity|].
    apply (startProcessing_guard env_ok 5 s_busy). right. reflexivity.
  - split; [reflexivity|].
    destruct (startProcessing_guard env_ok 5 initialSession
                (or_introl eq_refl)) as [Hclick Hcall].
    split; [exact Hclick|exact (Hcall eq_refl)].
Defined.

(** ** What a run hands to the generation client *)

(** C2, as stated, fails in video mode: the invocation of
    [processVideoWatermark] receives the instruction and the aspect
    ratio, and the uploaded clip is not among its inputs. *)
Lemma video_call_ignores_source : ~ client_receives_source env_ok 5 s_video.
Proof.
  intros H.
  destruct (H clip (Call_processVideoWatermark (instruction s_video) AR_16_9))
    as [Hin _].
  - reflexivity.
  - discriminate.
  - vm_compute. repeat (first [left; reflexivity | right]).
  - reflexivity.
  - destruct Hin as [Hin|[Hin|[]]]; discriminate Hin.
Qed.

(** C2, amended: in image mode the generation client is invoked once,
    with the session's source, MIME type and instruction, and the one
    request it submits carries them.  In video mode every invocation
    receives the instruction and the aspect ratio only (one invocation
    once the key check has answered: the key query, and the dialog when
    it is opened), and the submitted request is built from these two
    alone: the source asset is not an input. *)
Theorem dispatch_inputs env fuel s src :
  selectedFile s = Some src -> src <> "" ->
  (activeTab s = TabImage ->
   filter is_client_call (trace_of (run (handleProcess env fuel) s))
   = [Call_removeWatermarkFromImage src (mimeType s) (instruction s)] /\
   filter is_submission (trace_of (run (handleProcess env fuel) s))
   = [GenerateContent (image_request src (mimeType s) (instruction s))]) /\
  (activeTab s = TabVideo ->
   (forall e, In e (filter is_client_call
                      (trace_of (run (handleProcess env fuel) s))) ->
              e = Call_processVideoWatermark (instruction s)
                    (videoAspectRatio s)) /\
   (forall e, In e (filter is_submission
                      (trace_of (run (handleProcess env fuel) s))) ->
              e = GenerateVideos (video_request (instruction s)
                                    (videoAspectRatio s))) /\
   (forall hasKey,
      aistudio_hasSelectedApiKey env = inr hasKey ->
      (hasKey = false -> aistudio_openSelectKey env 0 = inr tt) ->
      filter is_client_call (trace_of (run (handleProcess env fuel) s))
      = [Call_processVideoWatermark (instruction s) (videoAspectRatio s)] /\
      filter is_submission (trace_of (run (handleProcess env fuel) s))
      = [GenerateVideos (video_request (instruction s)
                           (videoAspectRatio s))])).
Proof.
  intros Hsel Hne.
  rewrite !(handleProcess_filter _ env fuel s src Hsel Hne)
    by (intros []; easy).
  rewrite generation_client_calls, generation_submissions.
  split; intros Htab; cbn in Htab; rewrite Htab; [now split|].
  destruct (key_check_passes env) eqn:Hpass.
  - split; [intros e [<-|[]]; reflexivity|].
    split; [intros e [<-|[]]; reflexivity|]. now split.
  - split; [intros e []|split; [intros e []|]].
    intros hasKey Hhas Hopen.
    assert (key_check_passes env = true) as Hyes
      by (apply key_check_passes_iff; now exists hasKey).
    congruence.
Qed.

Lemma dispatch_inputs_witness :
  filter is_client_call (trace_of (run (handleProcess env_auth 5) s_video))
  = [Call_processVideoWatermark (instruction s_video) AR_16_9] /\
  filter is_submission (trace_of (run (handleProcess env_auth 5) s_video))
  = [GenerateVideos (video_request (instruction s_video) AR_16_9)].
Proof.
  refine (proj2 (proj2 (proj2 (dispatch_inputs env_auth 5 s_video clip
                                 eq_refl _) eq_refl))
            false eq_refl (fun _ => eq_refl)).
  discriminate.
Defined.

(** ** Selecting a history entry *)

Lemma history_onClick_run item s :
  run (fun _ => history_onClick item) s
  = Done tt
      (apply_setter (SetProcessedResult (Some (edited item)))
         (apply_setter (SetSelectedFile (Some (original item)))
            (apply_setter (SetActiveTab (type item)) s)))
      [Set_ (SetActiveTab (type item));
       Set_ (SetSelectedFile (Some (original item)));
       Set_ (SetProcessedResult (Some (edited item)))].
Proof. reflexivity. Qed.

(** Selecting an entry overwrites the tab, the source and the result,
    and nothing else: the error, the MIME type and the history stay. *)
Lemma history_onClick_restores item s :
  let s' := final_state (run (fun _ => history_onClick item) s) in
  activeTab s' = type item /\
  selectedFile s' = Some (original item) /\
  processedResult s' = Some (edited item) /\
  error s' = error s /\
  mimeType s' = mimeType s /\
  history s' = history s /\
  isProcessing s' = isProcessing s.
Proof. rewrite history_onClick_run. cbn. repeat split. Qed.

(** C3: after a failed run has left its message, selecting the entry of
    the earlier success restores tab, source and result from the entry,
    but the error of the failed run is still set and still displayed:
    the click handler has no [setError(null)], unlike [clearCurrent] and
    a successful file selection. *)
Theorem history_onClick_keeps_error :
  let s' := final_state (run (fun _ => history_onClick old_entry) s_failed) in
  activeTab s' = type old_entry /\
  selectedFile s' = Some (original old_entry) /\
  processedResult s' = Some (edited old_entry) /\
  error s' = Some image_failure_message /\
  error_banner s' = Some image_failure_message /\
  ~ history_select_clears_error s_failed old_entry.
Proof.
  cbn. repeat split. discriminate.
Qed.

(** ** The video poll loop *)

Section VideoJob.

Variable env : Env.

Lemma poll_loop_alternates fuel : forall n op s,
  trace_of (poll_loop env fuel n op s)
  = poll_events (polled (trace_of (poll_loop env fuel n op s))) /\
  Forall (fun o => done o = false)
         (polled (trace_of (poll_loop env fuel n op s))) /\
  length (polled (trace_of (poll_loop env fuel n op s))) <= fuel.
Proof.
  induction fuel as [|fuel IH]; intros n op s; cbn [poll_loop];
    destruct (done op) eqn:Hd;
    try (cbn; split; [reflexivity|split; [constructor|lia]]).
  unfold bind, await, emit, ret, throw. cbn.
  destruct (operations_getVideosOperation env n op) as [f|op']; cbn.
  - split; [reflexivity|]. split; [now repeat constructor|lia].
  - destruct (IH (S n) op' s) as (Ht & Hp & Hl).
    destruct (poll_loop env fuel (S n) op' s) as [o s1 t1|f s1 t1|s1 t1];
      cbn [trace_of] in *; cbn; unfold poll_events in Ht; rewrite <- Ht;
      (split; [reflexivity|]); (split; [now constructor|lia]).
Qed.

Lemma poll_loop_fail n op ops f :
  PollFail env n op ops f ->
  forall fuel s, length ops <= fuel ->
    poll_loop env fuel n op s = Thrown f s (poll_events ops).
Proof.
  induction 1 as [n op f Hd Hp|n op op' ops f Hd Hp Hrun IH];
    intros fuel s Hf; (destruct fuel as [|fuel]; cbn in Hf; [lia|]);
    cbn [poll_loop]; rewrite Hd;
    unfold bind, await, emit, ret, throw; cbn; rewrite Hp; cbn.
  - reflexivity.
  - fold (poll_events ops). now rewrite (IH fuel s ltac:(lia)).
Qed.

Lemma poll_loop_stuck :
  (forall n op, done op = false ->
     exists op', operations_getVideosOperation env n op = inr op' /\
                 done op' = false) ->
  forall fuel n op s, done op = false ->
    exists t, poll_loop env fuel n op s = Diverged s t /\
              length (polled t) = fuel.
Proof.
  intros Hstuck. induction fuel as [|fuel IH]; intros n op s Hd;
    cbn [poll_loop]; rewrite Hd.
  - now eexists.
  - destruct (Hstuck n op Hd) as (op' & Hp & Hd').
    destruct (IH (S n) op' s Hd') as (t & Ht & Hl).
    unfold bind, await, emit, ret, throw. cbn. rewrite Hp. cbn. rewrite Ht.
    eexists. split; [reflexivity|]. cbn. now rewrite Hl.
Qed.

End VideoJob.

Section PollLoopFacts.

Variable env : Env.




End PollLoopFacts.





(** ** Faults *)

Lemma is_auth_fault_spec (f : Fault) :
  is_auth_fault f = true <->
  exists m a b, message f = Some m /\ m = a ++ auth_marker ++ b.
Proof.
  unfold is_auth_fault. destruct (message f) as [m|].
  - rewrite includes_spec. split.
    + intros (a & b & ->). now exists (a ++ auth_marker ++ b), a, b.
    + intros (m' & a & b & [= <-] & ->). now exists a, b.
  - split; [discriminate|]. now intros (m & a & b & [=] & _).
Qed.

(** C5, as stated, fails when the key dialog rejects: the [catch] block
    awaits the dialog before it sets the message.  In an image run
    refused with the marker, the dialog is opened once, it rejects, the
    handler rejects with it, and no error is displayed. *)
Lemma rejected_key_dialog_leaves_no_message :
  ~ auth_fault_shows_key_message env_dialog_fails 5 s_image
  /\ run (handleProcess env_dialog_fails 5) s_image
     = Thrown dialog_fault
         (apply_setter (SetIsProcessing false) (dispatched s_image))
         [Set_ (SetIsProcessing true); Set_ (SetError None);
          Call_removeWatermarkFromImage photo "image/png"
            (instruction s_image);
          NewGoogleGenAI "AIza-sample";
          GenerateContent
            (image_request photo "image/png" (instruction s_image));
          ConsoleError (Some "Gemini API Error:") auth_fault;
          OpenSelectKey; Set_ (SetIsProcessing false)]
  /\ error (final_state (run (handleProcess env_dialog_fails 5) s_image))
     = None.
Proof.
  split; [|split; reflexivity].
  intros H.
  specialize (H photo auth_fault (dispatched s_image)
                [Call_removeWatermarkFromImage photo "image/png"
                   (instruction s_image);
                 NewGoogleGenAI "AIza-sample";
                 GenerateContent
                   (image_request photo "image/png" (instruction s_image));
                 ConsoleError (Some "Gemini API Error:") auth_fault]
                eq_refl ltac:(discriminate) eq_refl eq_refl).
  discriminate H.
Qed.

(** C5, amended: when the generation step of a run throws a fault whose
    message contains the marker, the [catch] block invokes the
    key-selection prompt exactly once; when the prompt resolves, the run
    returns with the API-key-configuration message as error, not the
    message of the fault; when the prompt rejects, the handler rejects
    with that rejection and no error is set.  For every other fault the
    [catch] block does not prompt, and the run returns with the message
    of the fault as error, or the generic fallback when the fault has no
    message or an empty one.  In every case [isProcessing] is reset. *)
Theorem fault_handling env fuel s src f s1 t1 :
  selectedFile s = Some src -> src <> "" ->
  generation env fuel s src (dispatched s) = Thrown f s1 t1 ->
  exists s' tail,
    final_state (run (handleProcess env fuel) s) = s' /\
    trace_of (run (handleProcess env fuel) s)
    = (dispatch_events ++ t1 ++ tail)%list /\
    isProcessing s' = false /\
    (is_auth_fault f = true ->
     count_prompts tail = 1 /\
     (aistudio_openSelectKey env (count_prompts t1) = inr tt ->
      run (handleProcess env fuel) s
      = Done tt s' (dispatch_events ++ t1 ++ tail)%list /\
      error s' = Some api_key_message) /\
     (forall g,
        aistudio_openSelectKey env (count_prompts t1) = inl g ->
        run (handleProcess env fuel) s
        = Thrown g s' (dispatch_events ++ t1 ++ tail)%list /\
        error s' = None)) /\
    (is_auth_fault f = false ->
     count_prompts tail = 0 /\
     run (handleProcess env fuel) s
     = Done tt s' (dispatch_events ++ t1 ++ tail)%list /\
     error s' = Some (or_else (message f) fallback_message) /\
     (forall m, message f = Some m -> m <> "" -> error s' = Some m) /\
     (truthy (message f) = false -> error s' = Some fallback_message)).
Proof.
  intros Hsel Hne Hgen.
  destruct (is_auth_fault f) eqn:Hf.
  - destruct (aistudio_openSelectKey env (count_prompts t1)) as [g|[]]
      eqn:Hopen.
    + rewrite (handleProcess_auth_rejected env fuel s src Hsel Hne _ _ _ _
                 Hgen Hf Hopen).
      do 2 eexists. split; [reflexivity|]. split; [reflexivity|].
      split; [reflexivity|]. split; [intros _|discriminate].
      split; [reflexivity|]. split; [discriminate|].
      intros g' [= <-]. now split.
    + rewrite (handleProcess_auth env fuel s src Hsel Hne _ _ _ Hgen Hf Hopen).
      do 2 eexists. split; [reflexivity|]. split; [reflexivity|].
      split; [reflexivity|]. split; [intros _|discriminate].
      split; [reflexivity|]. split; [now split|discriminate].
  - rewrite (handleProcess_other env fuel s src Hsel Hne _ _ _ Hgen Hf).
    do 2 eexists. split; [reflexivity|]. split; [reflexivity|].
    split; [reflexivity|]. split; [discriminate|intros _].
    split; [reflexivity|]. split; [reflexivity|]. split; [reflexivity|].
    cbn. split.
    + intros m Hm Hm'. now rewrite Hm, (or_else_Some _ _ Hm').
    + intros Hm. apply truthy_false_inv in Hm as [-> | ->]; reflexivity.
Qed.

Lemma fault_handling_witness :
  is_auth_fault auth_fault = true /\
  aistudio_openSelectKey env_auth 0 = inr tt /\
  run (handleProcess env_auth 5) s_image
  = Done tt
      (apply_setter (SetIsProcessing false)
         (apply_setter (SetError (Some api_key_message))
            (dispatched s_image)))
      [Set_ (SetIsProcessing true); Set_ (SetError None);
       Call_removeWatermarkFromImage photo "image/png" (instruction s_image);
       NewGoogleGenAI "AIza-sample";
       GenerateContent
         (image_request photo "image/png" (instruction s_image));
       ConsoleError (Some "Gemini API Error:") auth_fault;
       OpenSelectKey;
       Set_ (SetError
               (Some "API Key configuration error. Please select a valid key."));
       ConsoleError None auth_fault; Set_ (SetIsProcessing false)].
Proof.
  split; [reflexivity|]. split; [reflexivity|].
  destruct (fault_handling env_auth 5 s_image photo auth_fault
              (dispatched s_image)
              [Call_removeWatermarkFromImage photo "image/png"
                 (instruction s_image);
               NewGoogleGenAI "AIza-sample";
               GenerateContent
                 (image_request photo "image/png" (instruction s_image));
               ConsoleError (Some "Gemini API Error:") auth_fault]
              eq_refl ltac:(discriminate) eq_refl)
    as (s' & tail & Hs' & Ht & _ & Hauth & _).
  destruct (Hauth eq_refl) as (_ & Hresolved & _).
  destruct (Hresolved eq_refl) as [Hrun _].
  rewrite Hrun. f_equal.
  - now rewrite <- Hs'.
  - now rewrite <- Ht.
Defined.

(** ** Results of the remote call *)

Lemma generation_image env fuel r src s :
  activeTab r = TabImage ->
  generation env fuel r src s
  = removeWatermarkFromImage env src (mimeType r) (instruction r) s.
Proof. unfold generation. now intros ->. Qed.

Lemma generation_video_ok env fuel r src s hasKey op0 ops opf :
  activeTab r = TabVideo ->
  aistudio_hasSelectedApiKey env = inr hasKey ->
  (hasKey = false -> aistudio_openSelectKey env 0 = inr tt) ->
  models_generateVideos env
    (video_request (instruction r) (videoAspectRatio r)) = inr op0 ->
  PollRun env 0 op0 ops opf ->
  length ops <= fuel ->
  exists t,
    generation env fuel r src s
    = Done (if negb (truthy (downloadLink opf)) then None
            else Some (template (downloadLink opf) ++ "&key="
                         ++ template (API_KEY env)))
        s t.
Proof.
  intros Htab Hkey Hopen Hsub Hrun Hfuel.
  unfold generation, checkAndPromptKey. rewrite Htab. cbn [Tab_eqb].
  unfold bind, await, emit, ret, throw. rewrite Hkey.
  destruct hasKey; [|rewrite (Hopen eq_refl)];
    cbn -[processVideoWatermark];
    rewrite (processVideoWatermark_ok env fuel _ _ op0 ops opf s
               Hsub Hrun Hfuel);
    now eexists.
Qed.

(** C6: in image mode, when the service answers the edit request with a
    response whose first inline part renders as [res], the run ends with
    [res] as the result and with exactly one new history entry, holding
    the source of the dispatch and [res], at index 0 in front of the
    unchanged earlier history. *)
Theorem image_edit_appends_history env fuel s src resp res :
  activeTab s = TabImage ->
  selectedFile s = Some src -> src <> "" ->
  models_generateContent env
    (image_request src (mimeType s) (instruction s)) = inr resp ->
  first_inline (response_parts resp) = Some res ->
  exists s' t,
    run (handleProcess env fuel) s = Done tt s' t /\
    res <> "" /\
    processedResult s' = Some res /\
    history s'
    = {| type := TabImage; original := src; edited := res;
         timestamp := Date_now env |} :: history s /\
    nth_error (history s') 0
    = Some {| type := TabImage; original := src; edited := res;
              timestamp := Date_now env |} /\
    filter is_history_append t
    = [Set_ (PrependHistory {| type := TabImage; original := src;
                               edited := res; timestamp := Date_now env |})] /\
    error s' = None /\ isProcessing s' = false.
Proof.
  intros Htab Hsel Hne Hresp Hres.
  pose proof (first_inline_nonempty _ _ Hres) as Hres'.
  assert (Hgen : generation env fuel s src (dispatched s)
                 = Done (Some res) (dispatched s)
                     [Call_removeWatermarkFromImage src (mimeType s)
                        (instruction s);
                      NewGoogleGenAI (or_else (API_KEY env) "");
                      GenerateContent
                        (image_request src (mimeType s) (instruction s))]).
  { rewrite (generation_image env fuel s src _ Htab).
    rewrite (removeWatermarkFromImage_ok env _ _ _ resp _ Hresp).
    now rewrite Hres. }
  rewrite (handleProcess_success env fuel s src Hsel Hne _ _ _ Hgen Hres').
  rewrite Htab. do 2 eexists. split; [reflexivity|].
  cbn. repeat split. exact Hres'.
Qed.

Lemma image_edit_appends_history_witness :
  exists s' t,
    run (handleProcess env_ok 5) s_refine = Done tt s' t /\
    "data:image/png;base64,QkJCQg==" <> "" /\
    processedResult s' = Some "data:image/png;base64,QkJCQg==" /\
    history s'
    = {| type := TabImage; original := photo;
         edited := "data:image/png;base64,QkJCQg==";
         timestamp := Date_now env_ok |} :: history s_refine /\
    nth_error (history s') 0
    = Some {| type := TabImage; original := photo;
              edited := "data:image/png;base64,QkJCQg==";
              timestamp := Date_now env_ok |} /\
    filter is_history_append t
    = [Set_ (PrependHistory {| type := TabImage; original := photo;
                               edited := "data:image/png;base64,QkJCQg==";
                               timestamp := Date_now env_ok |})] /\
    error s' = None /\ isProcessing s' = false.
Proof.
  apply (image_edit_appends_history env_ok 5 s_refine photo edited_response).
  - reflexivity.
  - reflexivity.
  - discriminate.
  - reflexivity.
  - reflexivity.
Defined.

(** C8: when the remote call succeeds without a usable asset (no inline
    part in the answer of the image edit; no URI of a first generated
    video in the finished job), the run ends with the failure message of
    the active mode as error, a non-empty message that differs between
    the two modes; the result is the one the session had before the run,
    no result is written, and the history is unchanged. *)
Theorem empty_result_fails env fuel s k :
  truthy (selectedFile s) = true ->
  EmptyResult env s k ->
  k <= fuel ->
  exists s' t,
    run (handleProcess env fuel) s = Done tt s' t /\
    error s' = Some (failure_message (activeTab s)) /\
    failure_message (activeTab s) <> "" /\
    failure_message TabImage <> failure_message TabVideo /\
    processedResult s' = processedResult s /\
    history s' = history s /\
    filter is_result_write t = [] /\
    filter is_history_append t = [] /\
    isProcessing s' = false.
Proof.
  intros Hsrc Hempty Hfuel.
  destruct (selectedFile s) as [src|] eqn:Hsel; [|discriminate].
  apply truthy_Some in Hsrc.
  assert (Hgen : exists result t1,
             generation env fuel s src (dispatched s)
             = Done result (dispatched s) t1 /\ truthy result = false).
  { destruct Hempty as [src0 resp Htab Hsel0 Hresp Hnone
                       |b op0 ops opf Htab Hkey Hopen Hsub Hrun Hlink].
    - assert (src0 = src) as -> by congruence.
      rewrite (generation_image env fuel s src _ Htab).
      rewrite (removeWatermarkFromImage_ok env _ _ _ resp _ Hresp), Hnone.
      now do 2 eexists.
    - destruct (generation_video_ok env fuel s src (dispatched s) b op0 ops
                  opf Htab Hkey Hopen Hsub Hrun Hfuel) as [t1 Ht1].
      rewrite Ht1, Hlink. cbn. now do 2 eexists. }
  destruct Hgen as (result & t1 & Hgen & Hres).
  rewrite (handleProcess_empty env fuel s src Hsel Hsrc _ _ _ Hgen Hres).
  pose proof (generation_no_setter env fuel s src (dispatched s)) as Hns.
  rewrite Hgen in Hns. cbn [trace_of] in Hns.
  assert (Hsub : forall p, (forall e, p e = true -> is_setter e = true) ->
                           filter p t1 = []).
  { intros p Hp. exact (filter_narrower p is_setter t1 Hp Hns). }
  do 2 eexists. split; [reflexivity|].
  split; [reflexivity|]. split; [apply failure_message_nonempty|].
  split; [discriminate|]. split; [reflexivity|]. split; [reflexivity|].
  rewrite !filter_app, !Hsub by (intros []; easy).
  repeat split.
Qed.

Lemma empty_result_fails_witness :
  exists s' t,
    run (handleProcess env_empty 3) s_video = Done tt s' t /\
    error s' = Some (failure_message (activeTab s_video)) /\
    failure_message (activeTab s_video) <> "" /\
    failure_message TabImage <> failure_message TabVideo /\
    processedResult s' = processedResult s_video /\
    history s' = history s_video /\
    filter is_result_write t = [] /\
    filter is_history_append t = [] /\
    isProcessing s' = false.
Proof.
  apply (empty_result_fails env_empty 3 s_video 1).
  - reflexivity.
  - apply (EmptyResult_video env_empty s_video true job_pending
             [job_pending] (job_without_video job_pending));
      try reflexivity.
    apply PollRun_step with (op' := job_without_video job_pending);
      [reflexivity..|].
    apply PollRun_done. reflexivity.
  - lia.
Defined.

(** ** Selecting a file *)

(** C7: a file whose declared type does not start with the prefix of the
    active tab is rejected with the message of that tab; the only thing
    done is that [setError] call, so the source (and the MIME type, the
    result and the history) are as before, nothing is encoded and no
    network call is made. *)
Theorem wrong_file_type_rejected env s file :
  (activeTab s = TabImage /\ startsWith (file_type file) "image/" = false) \/
  (activeTab s = TabVideo /\ startsWith (file_type file) "video/" = false) ->
  exists msg s',
    run (fun r => handleFileSelect env r (Some file)) s
    = Done tt s' [Set_ (SetError (Some msg))] /\
    msg = match activeTab s with
          | TabImage => "Please select an image file."
          | TabVideo => "Please select a video file."
          end /\
    error s' = Some msg /\
    selectedFile s' = selectedFile s /\
    mimeType s' = mimeType s /\
    processedResult s' = processedResult s /\
    history s' = history s /\
    filter is_encoding [Set_ (SetError (Some msg))] = [] /\
    filter is_network [Set_ (SetError (Some msg))] = [].
Proof.
  unfold run, handleFileSelect.
  intros [[Htab Hty]|[Htab Hty]]; rewrite Htab, Hty; cbn;
    do 2 eexists; repeat split.
Qed.

Lemma wrong_file_type_rejected_witness :
  exists msg s',
    run (fun r => handleFileSelect env_ok r (Some movie_file)) s_image
    = Done tt s' [Set_ (SetError (Some msg))] /\
    msg = match activeTab s_image with
          | TabImage => "Please select an image file."
          | TabVideo => "Please select a video file."
          end /\
    error s' = Some msg /\
    selectedFile s' = selectedFile s_image /\
    mimeType s' = mimeType s_image /\
    processedResult s' = processedResult s_image /\
    history s' = history s_image /\
    filter is_encoding [Set_ (SetError (Some msg))] = [] /\
    filter is_network [Set_ (SetError (Some msg))] = [].
Proof.
  apply (wrong_file_type_rejected env_ok s_image movie_file).
  left. split; reflexivity.
Defined.

(** C9: for a file that passes the type check, the first thing done is
    [setMimeType] with the declared type of the file, and the encoding
    is attempted after it.  When the encoding then fails, the run ends
    with the read-error message, the source and the result as they were
    before, and the MIME type of the file that was never loaded. *)
Theorem mimeType_set_before_encoding env s file :
  (activeTab s = TabImage -> startsWith (file_type file) "image/" = true) ->
  (activeTab s = TabVideo -> startsWith (file_type file) "video/" = true) ->
  exists s' rest,
    run (fun r => handleFileSelect env r (Some file)) s
    = Done tt s'
        (Set_ (SetMimeType (file_type file)) :: ReadAsDataURL file :: rest) /\
    mimeType s' = file_type file /\
    (forall f, FileReader_readAsDataURL env file = inl f ->
       rest = [Set_ (SetError (Some "Error reading file."))] /\
       selectedFile s' = selectedFile s /\
       processedResult s' = processedResult s /\
       error s' = Some "Error reading file.") /\
    (forall base64, FileReader_readAsDataURL env file = inr base64 ->
       selectedFile s' = Some base64 /\
       processedResult s' = None /\
       error s' = None).
Proof.
  intros Himg Hvid. unfold run, handleFileSelect.
  assert (Hpass :
    Tab_eqb (activeTab s) TabImage
    && negb (startsWith (file_type file) "image/") = false /\
    Tab_eqb (activeTab s) TabVideo
    && negb (startsWith (file_type file) "video/") = false).
  { destruct (activeTab s); cbn [Tab_eqb andb].
    - now rewrite Himg.
    - now rewrite Hvid. }
  destruct Hpass as [-> ->].
  unfold fileToBase64, bind, try_catch, await, set, emit, ret, throw.
  destruct (FileReader_readAsDataURL env file) as [f|base64]; cbn;
    do 2 eexists; (split; [reflexivity|]); (split; [reflexivity|]);
    split; intros x [= <-]; repeat split.
Qed.

Lemma mimeType_set_before_encoding_witness :
  FileReader_readAsDataURL env_empty mov_file = inl read_fault /\
  mimeType s_video = "video/mp4" /\
  exists s',
    run (fun r => handleFileSelect env_empty r (Some mov_file)) s_video
    = Done tt s'
        [Set_ (SetMimeType "video/quicktime"); ReadAsDataURL mov_file;
         Set_ (SetError (Some "Error reading file."))] /\
    mimeType s' = "video/quicktime" /\
    selectedFile s' = Some clip /\
    error s' = Some "Error reading file.".
Proof.
  split; [reflexivity|]. split; [reflexivity|].
  destruct (mimeType_set_before_encoding env_empty s_video mov_file
              ltac:(discriminate) ltac:(reflexivity))
    as (s' & rest & Hrun & Hmime & Hfail & _).
  destruct (Hfail read_fault eq_refl) as (-> & Hsel & _ & Herr).
  exists s'. split; [exact Hrun|]. split; [exact Hmime|].
  split; [exact Hsel|exact Herr].
Defined.

(** ** Refining a result *)




(** * Further properties of the code *)

(** ** The payload of an image request *)

Lemma includes_comma_cons (c : ascii) (a : string) :
  includes (String c a) "," = Ascii.eqb c "," || includes a ",".
Proof.
  cbn [includes String.prefix].
  destruct (ascii_dec "," c) as [<-|Hc].
  - now destruct a.
  - destruct (Ascii.eqb_spec c ","); [congruence|reflexivity].
Qed.

Lemma split_comma_free (a : string) :
  includes a "," = false -> split "," a = [a].
Proof.
  induction a as [|c a IH]; [reflexivity|].
  rewrite includes_comma_cons, orb_false_iff. intros [Hc Ha].
  cbn [split]. rewrite Hc, (IH Ha). reflexivity.
Qed.

Lemma split_at_comma (a b : string) :
  includes a "," = false ->
  split "," (a ++ String "," b) = a :: split "," b.
Proof.
  induction a as [|c a IH]; [reflexivity|].
  rewrite includes_comma_cons, orb_false_iff. intros [Hc Ha].
  cbn [append split]. rewrite Hc, (IH Ha). reflexivity.
Qed.

Lemma payload_sent_image_request raw mime instr :
  payload_sent (image_request raw mime instr)
  = Some (or_else (nth_error (split "," raw) 1) raw).
Proof. reflexivity. Qed.

(** X1: of a data URL [head,payload] the request carries the payload
    alone, the head up to the first comma being stripped; of a string
    with a second comma it carries only what lies between the first two
    commas. *)
Theorem image_request_strips_prefix head payload rest mime instr :
  includes head "," = false ->
  includes payload "," = false ->
  payload <> "" ->
  payload_sent (image_request (head ++ "," ++ payload) mime instr)
  = Some payload /\
  payload_sent (image_request (head ++ "," ++ payload ++ "," ++ rest)
                              mime instr)
  = Some payload.
Proof.
  intros Hhead Hpay Hne. rewrite !payload_sent_image_request.
  cbn [append].
  rewrite !(split_at_comma head _ Hhead), (split_at_comma payload rest Hpay),
    (split_comma_free _ Hpay).
  cbn [nth_error]. split; now rewrite or_else_Some.
Qed.

Lemma image_request_strips_prefix_witness :
  payload_sent (image_request ("data:image/png;base64" ++ "," ++ "QUFBQQ==")
                              "image/png" "clean")
  = Some "QUFBQQ==" /\
  payload_sent (image_request ("data:image/png;base64" ++ "," ++ "QUFBQQ=="
                                 ++ "," ++ "tail")
                              "image/png" "clean")
  = Some "QUFBQQ==".
Proof.
  apply (image_request_strips_prefix "data:image/png;base64" "QUFBQQ=="
           "tail" "image/png" "clean").
  - reflexivity.
  - reflexivity.
  - discriminate.
Defined.

(** X2: a string without a comma is sent whole, and so is a string whose
    only comma is its last character: an empty second segment falls back
    to the whole string. *)
Theorem image_request_falls_back_to_whole raw mime instr :
  includes raw "," = false ->
  payload_sent (image_request raw mime instr) = Some raw /\
  payload_sent (image_request (raw ++ ",") mime instr) = Some (raw ++ ",").
Proof.
  intros Hraw. rewrite !payload_sent_image_request.
  rewrite (split_comma_free _ Hraw), (split_at_comma raw "" Hraw).
  split; reflexivity.
Qed.

Lemma image_request_falls_back_to_whole_witness :
  payload_sent (image_request "QUFBQQ==" "image/png" "clean")
  = Some "QUFBQQ==" /\
  payload_sent (image_request ("QUFBQQ==" ++ ",") "image/png" "clean")
  = Some ("QUFBQQ==" ++ ",").
Proof.
  apply (image_request_falls_back_to_whole "QUFBQQ==" "image/png" "clean").
  reflexivity.
Defined.

(** ** The answer of an image edit *)

Lemma includes_comma_app (a b : string) :
  includes (a ++ b) "," = includes a "," || includes b ",".
Proof.
  induction a as [|c a IH].
  - cbn [append]. now destruct b.
  - cbn [append]. rewrite !includes_comma_cons, IH. apply orb_assoc.
Qed.

Lemma first_inline_skips pre l :
  Forall (fun p => inlineData p = None) pre ->
  first_inline (pre ++ l) = first_inline l.
Proof.
  induction 1 as [|p pre Hp _ IH]; cbn; [reflexivity|].
  rewrite Hp. exact IH.
Qed.

(** X3: the first part with inline data decides the answer: text parts
    before it are skipped, parts after it are ignored, and the answer is
    the data URL of its MIME type and payload. *)
Theorem first_inline_takes_first pre b rest :
  Forall (fun p => inlineData p = None) pre ->
  first_inline (pre ++ {| inlineData := Some b; text := None |} :: rest)
  = Some ("data:" ++ template (blob_mimeType b) ++ ";base64,"
                  ++ template (data b)).
Proof.
  intros Hpre. rewrite (first_inline_skips pre _ Hpre). reflexivity.
Qed.

Lemma first_inline_takes_first_witness :
  first_inline
    ([text_part "Here it is."]
     ++ {| inlineData := Some {| data := Some "QkJCQg==";
                                 blob_mimeType := Some "image/png" |};
           text := None |}
     :: [inline_part (Some "image/jpeg") (Some "Q0ND")])
  = Some ("data:" ++ "image/png" ++ ";base64," ++ "QkJCQg==").
Proof.
  apply (first_inline_takes_first [text_part "Here it is."]
           {| data := Some "QkJCQg=="; blob_mimeType := Some "image/png" |}
           [inline_part (Some "image/jpeg") (Some "Q0ND")]).
  repeat constructor.
Defined.

(** X4: wrapping and stripping are inverse: when the service answers
    with an inline part of MIME type [mime] and payload [payload], both
    without a comma and the payload not empty, the image edit returns a
    data URL, and a request built from that data URL carries exactly
    [payload] again. *)
Theorem edited_image_round_trip env src m i resp pre rest mime payload s :
  models_generateContent env (image_request src m i) = inr resp ->
  response_parts resp
  = (pre ++ inline_part (Some mime) (Some payload) :: rest)%list ->
  Forall (fun p => inlineData p = None) pre ->
  includes mime "," = false ->
  includes payload "," = false ->
  payload <> "" ->
  exists url t,
    removeWatermarkFromImage env src m i s = Done (Some url) s t /\
    url = "data:" ++ mime ++ ";base64," ++ payload /\
    forall m' i', payload_sent (image_request url m' i') = Some payload.
Proof.
  intros Hresp Hparts Hpre Hmime Hpay Hne.
  rewrite (removeWatermarkFromImage_ok env _ _ _ resp _ Hresp), Hparts.
  unfold inline_part. rewrite (first_inline_skips pre _ Hpre).
  cbn [first_inline inlineData template blob_mimeType data].
  do 2 eexists. split; [reflexivity|]. split; [reflexivity|].
  intros m' i'.
  assert (Hhead : includes ("data:" ++ mime ++ ";base64") "," = false).
  { rewrite !includes_comma_app, Hmime. reflexivity. }
  replace ("data:" ++ mime ++ ";base64," ++ payload)
    with (("data:" ++ mime ++ ";base64") ++ "," ++ payload).
  - rewrite payload_sent_image_request.
    change ("," ++ payload) with (String "," payload).
    rewrite (split_at_comma _ payload Hhead), (split_comma_free _ Hpay).
    cbn [nth_error]. now rewrite (or_else_Some _ _ Hne).
  - clear. cbn. do 5 f_equal.
    induction mime as [|c mime IH]; cbn; [reflexivity|]. now f_equal.
Qed.

Lemma edited_image_round_trip_witness :
  exists url t,
    removeWatermarkFromImage env_ok photo "image/png" "clean" s_image
    = Done (Some url) s_image t /\
    url = "data:" ++ "image/png" ++ ";base64," ++ "QkJCQg==" /\
    forall m' i', payload_sent (image_request url m' i') = Some "QkJCQg==".
Proof.
  apply (edited_image_round_trip env_ok photo "image/png" "clean"
           edited_response [text_part "Here is the image."] []
           "image/png" "QkJCQg==" s_image).
  - reflexivity.
  - reflexivity.
  - repeat constructor.
  - reflexivity.
  - reflexivity.
  - discriminate.
Defined.

(** ** The video job *)


(** X5: whatever the service answers and however the call ends, video
    generation is one submission followed by rounds of a 10000 ms wait and
    one poll, and at most one logged fault at the end; a poll is only
    ever made for an operation that is not done. *)
Theorem video_run_waits_before_each_poll env fuel prompt a s :
  let t := trace_of (processVideoWatermark env fuel prompt a s) in
  exists tail,
    t = Call_processVideoWatermark prompt a
        :: NewGoogleGenAI (or_else (API_KEY env) "")
        :: GenerateVideos (video_request prompt a)
        :: (flat_map (fun op => [SetTimeout 10000; GetVideosOperation op])
                     (polled t)
            ++ tail)%list /\
    (tail = [] \/
     exists f, tail = [ConsoleError (Some "Video Generation Error:") f]) /\
    Forall (fun o => done o = false) (polled t) /\
    length (polled t) <= fuel.
Proof.
  unfold processVideoWatermark, bind, try_catch, await, emit, ret, throw.
  destruct (models_generateVideos env (video_request prompt a)) as [f|op0];
    cbn.
  - eexists. split; [reflexivity|]. split; [right; now eexists|].
    split; [constructor|lia].
  - destruct (poll_loop_alternates env fuel 0 op0 s) as (Ht & Hp & Hl).
    unfold poll_events in Ht.
    destruct (poll_loop env fuel 0 op0 s) as [opf s1 t1|f s1 t1|s1 t1];
      cbn [trace_of] in Ht, Hp, Hl.
    + destruct (negb (truthy (downloadLink opf))); cbn; rewrite app_nil_r;
        exists []; rewrite app_nil_r, <- Ht;
        (split; [reflexivity|]); (split; [now left|]); now split.
    + cbn. exists [ConsoleError (Some "Video Generation Error:") f].
      rewrite polled_app. cbn [polled]. rewrite app_nil_r, <- Ht.
      split; [reflexivity|]. split; [right; now eexists|]. now split.
    + cbn. exists []. rewrite app_nil_r, <- Ht.
      split; [reflexivity|]. split; [now left|]. now split.
Qed.

(** X6: a rejected poll is not retried: when a poll is rejected after
    the polls before it found the job still running, video generation
    throws that very fault; the rejected poll is the last one made, and
    the fault is logged once. *)
Theorem video_poll_fault_not_retried env fuel prompt a op0 ops f s :
  models_generateVideos env (video_request prompt a) = inr op0 ->
  PollFail env 0 op0 ops f ->
  length ops <= fuel ->
  processVideoWatermark env fuel prompt a s
  = Thrown f s
      (Call_processVideoWatermark prompt a
       :: NewGoogleGenAI (or_else (API_KEY env) "")
       :: GenerateVideos (video_request prompt a)
       :: (flat_map (fun op => [SetTimeout 10000; GetVideosOperation op]) ops
           ++ [ConsoleError (Some "Video Generation Error:") f])%list).
Proof.
  intros Hsub Hfail Hfuel.
  unfold processVideoWatermark, bind, try_catch, await, emit, ret, throw.
  rewrite Hsub. cbn. rewrite (poll_loop_fail env 0 op0 ops f Hfail fuel s Hfuel).
  reflexivity.
Qed.

Lemma video_poll_fault_not_retried_witness :
  processVideoWatermark env_poll_fails 4 "A clean beach" AR_16_9 s_video
  = Thrown quota_fault s_video
      (Call_processVideoWatermark "A clean beach" AR_16_9
       :: NewGoogleGenAI (or_else (API_KEY env_poll_fails) "")
       :: GenerateVideos (video_request "A clean beach" AR_16_9)
       :: (flat_map (fun op => [SetTimeout 10000; GetVideosOperation op])
                    [job_pending; job_pending]
           ++ [ConsoleError (Some "Video Generation Error:") quota_fault])%list).
Proof.
  apply (video_poll_fault_not_retried env_poll_fails 4 "A clean beach"
           AR_16_9 job_pending [job_pending; job_pending] quota_fault
           s_video).
  - reflexivity.
  - apply PollFail_later with (op' := job_pending); [reflexivity..|].
    apply PollFail_now; reflexivity.
  - cbn. lia.
Defined.

(** X7: polling has no bound of its own: while the service keeps
    answering that the job is running, a video run makes as many polls
    as it is given iterations and is then still waiting, with
    [isProcessing] set, no error, and the result and the history as they
    were. *)
Theorem video_polling_is_unbounded env s src hasKey op0 :
  activeTab s = TabVideo ->
  selectedFile s = Some src -> src <> "" ->
  aistudio_hasSelectedApiKey env = inr hasKey ->
  (hasKey = false -> aistudio_openSelectKey env 0 = inr tt) ->
  models_generateVideos env
    (video_request (instruction s) (videoAspectRatio s)) = inr op0 ->
  done op0 = false ->
  (forall n op, done op = false ->
     exists op', operations_getVideosOperation env n op = inr op' /\
                 done op' = false) ->
  forall fuel,
  exists s' t,
    run (handleProcess env fuel) s = Diverged s' t /\
    length (polled t) = fuel /\
    isProcessing s' = true /\ error s' = None /\
    processedResult s' = processedResult s /\ history s' = history s.
Proof.
  intros Htab Hsel Hne Hkey Hopen Hsub Hd Hstuck fuel.
  destruct (poll_loop_stuck env Hstuck fuel 0 op0 (dispatched s) Hd)
    as (t & Ht & Hl).
  assert (Hgen : exists t1,
            generation env fuel s src (dispatched s)
            = Diverged (dispatched s) t1 /\ length (polled t1) = fuel).
  { unfold generation, checkAndPromptKey. rewrite Htab. cbn [Tab_eqb].
    unfold processVideoWatermark, bind, try_catch, await, emit, ret, throw.
    rewrite Hkey, Hsub.
    destruct hasKey; [|rewrite (Hopen eq_refl)];
      cbn -[dispatched poll_loop]; rewrite Ht;
      cbn -[dispatched];
      (eexists; split; [reflexivity|exact Hl]). }
  destruct Hgen as (t1 & Hgen & Hl1).
  rewrite (handleProcess_waiting env fuel s src Hsel Hne _ _ Hgen).
  do 2 eexists. split; [reflexivity|]. split; [exact Hl1|].
  repeat split.
Qed.

Lemma video_polling_is_unbounded_witness :
  exists s' t,
    run (handleProcess env_stuck 3) s_video = Diverged s' t /\
    length (polled t) = 3 /\
    isProcessing s' = true /\ error s' = None /\
    processedResult s' = processedResult s_video /\
    history s' = history s_video.
Proof.
  refine (video_polling_is_unbounded env_stuck s_video clip true job_pending
            eq_refl eq_refl _ eq_refl _ eq_refl eq_refl _ 3).
  - discriminate.
  - discriminate.
  - intros n op Hd. exists op. split; [reflexivity|exact Hd].
Defined.

(** X8: without a build-time credential the client is created with the
    empty key, and the link of a finished video is returned with the
    word undefined as its key parameter. *)
Theorem video_link_without_credential env fuel prompt a op0 ops opf u s :
  API_KEY env = None ->
  models_generateVideos env (video_request prompt a) = inr op0 ->
  PollRun env 0 op0 ops opf ->
  length ops <= fuel ->
  downloadLink opf = Some u -> u <> "" ->
  exists t,
    processVideoWatermark env fuel prompt a s
    = Done (Some (u ++ "&key=undefined")) s t /\
    In (NewGoogleGenAI "") t.
Proof.
  intros Hkey Hsub Hrun Hfuel Hu Hne.
  rewrite (processVideoWatermark_ok env fuel prompt a op0 ops opf s
             Hsub Hrun Hfuel).
  rewrite Hkey, Hu. cbn. apply String.eqb_neq in Hne as ->. cbn.
  eexists. split; [reflexivity|]. right. now left.
Qed.

Lemma video_link_without_credential_witness :
  exists t,
    processVideoWatermark env_no_credential 1 "A clean beach" AR_16_9 s_video
    = Done (Some (video_link ++ "&key=undefined")) s_video t /\
    In (NewGoogleGenAI "") t.
Proof.
  apply (video_link_without_credential env_no_credential 1 "A clean beach"
           AR_16_9 job_pending [job_pending]
           (job_finished (Some video_link) job_pending) video_link s_video).
  - reflexivity.
  - reflexivity.
  - apply PollRun_step
      with (op' := job_finished (Some video_link) job_pending);
      [reflexivity..|].
    apply PollRun_done. reflexivity.
  - cbn. lia.
  - reflexivity.
  - discriminate.
Defined.

(** X9: a rejected submission ends video generation at once, whatever
    the iteration budget: the fault is logged and thrown unchanged, and
    there is neither a wait nor a poll. *)
Theorem video_submission_fault env fuel prompt a f s :
  models_generateVideos env (video_request prompt a) = inl f ->
  processVideoWatermark env fuel prompt a s
  = Thrown f s
      [Call_processVideoWatermark prompt a;
       NewGoogleGenAI (or_else (API_KEY env) "");
       GenerateVideos (video_request prompt a);
       ConsoleError (Some "Video Generation Error:") f] /\
  polled (trace_of (processVideoWatermark env fuel prompt a s)) = [].
Proof.
  intros Hsub.
  unfold processVideoWatermark, bind, try_catch, await, emit, ret, throw.
  rewrite Hsub. split; reflexivity.
Qed.

Lemma video_submission_fault_witness :
  processVideoWatermark env_auth 3 "A clean beach" AR_16_9 s_video
  = Thrown auth_fault s_video
      [Call_processVideoWatermark "A clean beach" AR_16_9;
       NewGoogleGenAI (or_else (API_KEY env_auth) "");
       GenerateVideos (video_request "A clean beach" AR_16_9);
       ConsoleError (Some "Video Generation Error:") auth_fault] /\
  polled (trace_of (processVideoWatermark env_auth 3 "A clean beach"
                      AR_16_9 s_video)) = [].
Proof.
  apply (video_submission_fault env_auth 3 "A clean beach" AR_16_9
           auth_fault s_video).
  reflexivity.
Defined.

(** ** Every way a processing run can end *)

Lemma handleProcess_cases env fuel s :
  (truthy (selectedFile s) = false /\
   run (handleProcess env fuel) s = Done tt s []) \/
  exists src,
    selectedFile s = Some src /\ src <> "" /\
    ((exists res t,
        res <> "" /\
        run (handleProcess env fuel) s
        = Done tt
            (apply_setter (SetIsProcessing false)
               (apply_setter
                  (PrependHistory
                     {| type := activeTab s; original := src; edited := res;
                        timestamp := Date_now env |})
                  (apply_setter (SetProcessedResult (Some res))
                     (dispatched s)))) t) \/
     (exists msg t,
        msg <> "" /\
        run (handleProcess env fuel) s
        = Done tt
            (apply_setter (SetIsProcessing false)
               (apply_setter (SetError (Some msg)) (dispatched s))) t) \/
     (exists g f s1 t1 t,
        generation env fuel s src (dispatched s) = Thrown f s1 t1 /\
        is_auth_fault f = true /\
        aistudio_openSelectKey env (count_prompts t1) = inl g /\
        run (handleProcess env fuel) s
        = Thrown g (apply_setter (SetIsProcessing false) (dispatched s)) t) \/
     (exists t, run (handleProcess env fuel) s = Diverged (dispatched s) t)).
Proof.
  destruct (selectedFile s) as [src|] eqn:Hsel; [|left; split; [reflexivity|]].
  2: { unfold run, handleProcess. now rewrite Hsel. }
  destruct (String.eqb_spec src "") as [->|Hne].
  { left. split; [reflexivity|]. unfold run, handleProcess. now rewrite Hsel. }
  right. exists src. split; [reflexivity|]. split; [exact Hne|].
  destruct (generation env fuel s src (dispatched s))
    as [result s1 t1|f s1 t1|s1 t1] eqn:Hgen.
  - destruct result as [res|].
    + destruct (String.eqb_spec res "") as [->|Hres].
      * right; left. do 2 eexists. split; [|
          exact (handleProcess_empty env fuel s src Hsel Hne _ _ _ Hgen
                   eq_refl)].
        apply failure_message_nonempty.
      * left. do 2 eexists. split; [exact Hres|].
        exact (handleProcess_success env fuel s src Hsel Hne _ _ _ Hgen Hres).
    + right; left. do 2 eexists. split; [|
        exact (handleProcess_empty env fuel s src Hsel Hne _ _ _ Hgen
                 eq_refl)].
      apply failure_message_nonempty.
  - destruct (is_auth_fault f) eqn:Hf.
    + destruct (aistudio_openSelectKey env (count_prompts t1)) as [g|[]]
        eqn:Hopen.
      * right; right; left. exists g, f, s1, t1. eexists.
        split; [reflexivity|]. split; [exact Hf|]. split; [exact Hopen|].
        exact (handleProcess_auth_rejected env fuel s src Hsel Hne _ _ _ _
                 Hgen Hf Hopen).
      * right; left. do 2 eexists. split; [|
          exact (handleProcess_auth env fuel s src Hsel Hne _ _ _ Hgen Hf
                   Hopen)].
        discriminate.
    + right; left. do 2 eexists. split; [|
        exact (handleProcess_other env fuel s src Hsel Hne _ _ _ Hgen Hf)].
      apply or_else_nonempty. discriminate.
  - right; right; right. eexists.
    exact (handleProcess_waiting env fuel s src Hsel Hne _ _ Hgen).
Qed.

(** X10: [handleProcess] catches every fault of the generation, and
    rejects only through its own [catch] block: when the generation
    threw a fault with the authentication marker and the key dialog
    opened in the [catch] block rejected, the handler rejects with the
    fault of the dialog, with [isProcessing] false again and no error
    set.  When it returns after a dispatch, [isProcessing] is false
    again; as long as it is waiting for the video job, [isProcessing]
    is true. *)
Theorem handleProcess_rejects_only_from_catch env fuel s :
  match run (handleProcess env fuel) s with
  | Done _ s' _ =>
      isProcessing s' = false \/
      (truthy (selectedFile s) = false /\ s' = s)
  | Thrown g s' _ =>
      isProcessing s' = false /\ error s' = None /\
      exists src f s1 t1,
        selectedFile s = Some src /\
        generation env fuel s src (dispatched s) = Thrown f s1 t1 /\
        is_auth_fault f = true /\
        aistudio_openSelectKey env (count_prompts t1) = inl g
  | Diverged s' _ => isProcessing s' = true
  end.
Proof.
  destruct (handleProcess_cases env fuel s)
    as [[Hsrc ->]|(src & Hsel & Hne & [(res & t & _ & ->)
                                      |[(msg & t & _ & ->)
                                       |[(g & f & s1 & t1 & t & Hgen & Hf
                                          & Hopen & ->)
                                        |(t & ->)]]])].
  - right. now split.
  - now left.
  - now left.
  - split; [reflexivity|]. split; [reflexivity|].
    now exists src, f, s1, t1.
  - reflexivity.
Qed.

(** X11: a processing run, however it ends or while it is waiting,
    leaves the tab, the source, the MIME type, the instruction and the
    aspect ratio of the session as they were. *)
Theorem handleProcess_frame env fuel s :
  let s' := final_state (run (handleProcess env fuel) s) in
  activeTab s' = activeTab s /\
  selectedFile s' = selectedFile s /\
  mimeType s' = mimeType s /\
  instruction s' = instruction s /\
  videoAspectRatio s' = videoAspectRatio s.
Proof.
  destruct (handleProcess_cases env fuel s)
    as [[Hsrc ->]|(src & Hsel & Hne & [(res & t & _ & ->)
                                      |[(msg & t & _ & ->)
                                       |[(g & f & s1 & t1 & t & _ & _ & _
                                          & ->)
                                        |(t & ->)]]])];
    cbn; repeat split.
Qed.



(** X13: in video mode, when the key host answers, the job finishes
    within the iteration budget and its first video has a URI, the run
    stores the URI with the credential appended as result and puts one
    video entry holding the source and that link at the head of the
    history. *)
Theorem video_success_appends_history env fuel s src hasKey key op0 ops opf u :
  activeTab s = TabVideo ->
  selectedFile s = Some src -> src <> "" ->
  API_KEY env = Some key ->
  aistudio_hasSelectedApiKey env = inr hasKey ->
  (hasKey = false -> aistudio_openSelectKey env 0 = inr tt) ->
  models_generateVideos env
    (video_request (instruction s) (videoAspectRatio s)) = inr op0 ->
  PollRun env 0 op0 ops opf ->
  length ops <= fuel ->
  downloadLink opf = Some u -> u <> "" ->
  exists s' t,
    run (handleProcess env fuel) s = Done tt s' t /\
    processedResult s' = Some (u ++ "&key=" ++ key) /\
    history s'
    = {| type := TabVideo; original := src; edited := u ++ "&key=" ++ key;
         timestamp := Date_now env |} :: history s /\
    error s' = None /\ isProcessing s' = false /\
    polled t = ops.
Proof.
  intros Htab Hsel Hne Hkey Hhas Hopen Hsub Hrun Hfuel Hu Hu'.
  assert (Hgen : generation env fuel s src (dispatched s)
                 = Done (Some (u ++ "&key=" ++ key)) (dispatched s)
                     ((HasSelectedApiKey
                       :: if hasKey then [] else [OpenSelectKey])
                      ++ Call_processVideoWatermark (instruction s)
                           (videoAspectRatio s)
                      :: NewGoogleGenAI (or_else (API_KEY env) "")
                      :: GenerateVideos
                           (video_request (instruction s) (videoAspectRatio s))
                      :: poll_events ops)%list).
  { unfold generation, checkAndPromptKey. rewrite Htab. cbn [Tab_eqb].
    unfold bind, await, emit, ret, throw. rewrite Hhas.
    destruct hasKey; [|rewrite (Hopen eq_refl)];
      cbn -[processVideoWatermark dispatched];
      rewrite (processVideoWatermark_ok env fuel _ _ op0 ops opf _
                 Hsub Hrun Hfuel), Hu, Hkey; cbn -[dispatched];
      apply String.eqb_neq in Hu' as ->; reflexivity. }
  assert (Hres : u ++ "&key=" ++ key <> "").
  { destruct u; [congruence|discriminate]. }
  rewrite (handleProcess_success env fuel s src Hsel Hne _ _ _ Hgen Hres).
  rewrite Htab. do 2 eexists. split; [reflexivity|].
  do 4 (split; [reflexivity|]).
  rewrite !polled_app.
  destruct hasKey; cbn [polled dispatch_events app];
    now rewrite polled_poll_events, app_nil_r.
Qed.

Lemma video_success_appends_history_witness :
  exists s' t,
    run (handleProcess env_ok 2) s_video = Done tt s' t /\
    processedResult s' = Some (video_link ++ "&key=" ++ "AIza-sample") /\
    history s'
    = {| type := TabVideo; original := clip;
         edited := video_link ++ "&key=" ++ "AIza-sample";
         timestamp := Date_now env_ok |} :: history s_video /\
    error s' = None /\ isProcessing s' = false /\
    polled t = [job_pending; job_pending].
Proof.
  apply (video_success_appends_history env_ok 2 s_video clip true
           "AIza-sample" job_pending [job_pending; job_pending]
           (job_finished (Some video_link) job_pending) video_link).
  - reflexivity.
  - reflexivity.
  - discriminate.
  - reflexivity.
  - reflexivity.
  - discriminate.
  - reflexivity.
  - apply PollRun_step with (op' := job_pending); [reflexivity..|].
    apply PollRun_step
      with (op' := job_finished (Some video_link) job_pending);
      [reflexivity..|].
    apply PollRun_done. reflexivity.
  - cbn. lia.
  - reflexivity.
  - discriminate.
Defined.

(** ** The key check *)

(** X14: a video run consults the key host exactly once, first thing
    after the opening setter calls.  When the host answers, and the key
    dialog resolves where it is opened, the job is submitted whatever
    the answer: after a prompt for a missing key the run goes on without
    asking the host again. *)
Theorem video_key_check_then_submit env fuel s src :
  activeTab s = TabVideo ->
  selectedFile s = Some src -> src <> "" ->
  filter is_key_check (trace_of (run (handleProcess env fuel) s))
  = [HasSelectedApiKey] /\
  forall hasKey,
    aistudio_hasSelectedApiKey env = inr hasKey ->
    (hasKey = false -> aistudio_openSelectKey env 0 = inr tt) ->
    exists rest,
      trace_of (run (handleProcess env fuel) s)
      = (dispatch_events
         ++ (HasSelectedApiKey :: if hasKey then [] else [OpenSelectKey])
         ++ Call_processVideoWatermark (instruction s) (videoAspectRatio s)
         :: NewGoogleGenAI (or_else (API_KEY env) "")
         :: GenerateVideos
              (video_request (instruction s) (videoAspectRatio s))
         :: rest)%list.
Proof.
  intros Htab Hsel Hne. split.
  - rewrite (handleProcess_filter _ env fuel s src Hsel Hne)
      by (intros []; easy).
    rewrite generation_filter by now intros [].
    rewrite Htab.
    destruct (aistudio_hasSelectedApiKey env) as [f|[|]];
      destruct (key_check_passes env); reflexivity.
  - intros hasKey Hhas Hopen.
    destruct (handleProcess_trace env fuel s src Hsel Hne)
      as (tail & -> & _ & _).
    destruct (generation_shape env fuel s src (dispatched s))
      as (_ & rest & _ & ->).
    assert (Hpass : key_check_passes env = true).
    { unfold key_check_passes. rewrite Hhas.
      destruct hasKey; [reflexivity|now rewrite (Hopen eq_refl)]. }
    rewrite Htab, Hhas, Hpass. exists (rest ++ tail)%list.
    now rewrite <- !app_assoc.
Qed.

Lemma video_key_check_then_submit_witness :
  filter is_key_check (trace_of (run (handleProcess env_auth 3) s_video))
  = [HasSelectedApiKey] /\
  exists rest,
    trace_of (run (handleProcess env_auth 3) s_video)
    = (dispatch_events
       ++ [HasSelectedApiKey; OpenSelectKey]
       ++ Call_processVideoWatermark (instruction s_video)
            (videoAspectRatio s_video)
       :: NewGoogleGenAI (or_else (API_KEY env_auth) "")
       :: GenerateVideos
            (video_request (instruction s_video) (videoAspectRatio s_video))
       :: rest)%list.
Proof.
  destruct (video_key_check_then_submit env_auth 3 s_video clip
              eq_refl eq_refl ltac:(discriminate)) as [Honce Hsubmit].
  split; [exact Honce|exact (Hsubmit false eq_refl (fun _ => eq_refl))].
Defined.

(** X15: an image run never consults the key host, and it opens the key
    dialog at most once, in its [catch] block. *)
Theorem image_run_skips_key_check env fuel s :
  activeTab s = TabImage ->
  filter is_key_check (trace_of (run (handleProcess env fuel) s)) = [] /\
  count_prompts (trace_of (run (handleProcess env fuel) s)) <= 1.
Proof.
  intros Htab.
  destruct (selectedFile s) as [src|] eqn:Hsel.
  2: { unfold run, handleProcess. rewrite Hsel. cbn. split; [reflexivity|lia]. }
  destruct (String.eqb_spec src "") as [->|Hne].
  { unfold run, handleProcess. rewrite Hsel. cbn. split; [reflexivity|lia]. }
  split.
  - rewrite (handleProcess_filter _ env fuel s src Hsel Hne)
      by (intros []; easy).
    rewrite generation_filter by now intros [].
    now rewrite Htab.
  - pose proof (generation_prompts env fuel s src (dispatched s)) as Hp.
    unfold pre_dispatch_prompts in Hp. rewrite Htab in Hp.
    cbn [Tab_eqb] in Hp.
    destruct (generation env fuel s src (dispatched s))
      as [result s1 t1|f s1 t1|s1 t1] eqn:Hgen; cbn [trace_of] in Hp.
    + destruct (truthy result) eqn:Hres.
      * destruct result as [res|]; [|discriminate].
        apply truthy_Some in Hres.
        rewrite (handleProcess_success env fuel s src Hsel Hne _ _ _ Hgen
                   Hres).
        cbn [trace_of]. rewrite !count_prompts_app, Hp. cbn. lia.
      * rewrite (handleProcess_empty env fuel s src Hsel Hne _ _ _ Hgen Hres).
        cbn [trace_of]. rewrite !count_prompts_app, Hp. cbn. lia.
    + destruct (is_auth_fault f) eqn:Hf.
      * destruct (aistudio_openSelectKey env (count_prompts t1)) as [g|[]]
          eqn:Hopen.
        -- rewrite (handleProcess_auth_rejected env fuel s src Hsel Hne _ _ _
                      _ Hgen Hf Hopen).
           cbn [trace_of]. rewrite !count_prompts_app, Hp. cbn. lia.
        -- rewrite (handleProcess_auth env fuel s src Hsel Hne _ _ _ Hgen Hf
                      Hopen).
           cbn [trace_of]. rewrite !count_prompts_app, Hp. cbn. lia.
      * rewrite (handleProcess_other env fuel s src Hsel Hne _ _ _ Hgen Hf).
        cbn [trace_of]. rewrite !count_prompts_app, Hp. cbn. lia.
    + rewrite (handleProcess_waiting env fuel s src Hsel Hne _ _ Hgen).
      cbn [trace_of]. rewrite !count_prompts_app, Hp. cbn. lia.
Qed.

Lemma image_run_skips_key_check_witness :
  filter is_key_check (trace_of (run (handleProcess env_auth 3) s_image)) = []
  /\ count_prompts (trace_of (run (handleProcess env_auth 3) s_image)) <= 1.
Proof.
  apply (image_run_skips_key_check env_auth 3 s_image). reflexivity.
Defined.

(** X16: when the key host itself fails in video mode, the generation
    client is never invoked and nothing is sent to the service, and the
    run ends, neither waiting nor processing, with the result and the
    history untouched.  A fault without the authentication marker is
    shown as the error; a fault with the marker opens the key dialog:
    when the dialog resolves the handler returns with the key message,
    and when the dialog rejects the handler rejects with the fault of
    the dialog and no error is set. *)
Theorem key_host_fault_stops_video_run env fuel s src f :
  activeTab s = TabVideo ->
  selectedFile s = Some src -> src <> "" ->
  aistudio_hasSelectedApiKey env = inl f ->
  let out := run (handleProcess env fuel) s in
  filter is_client_call (trace_of out) = [] /\
  filter is_network (trace_of out) = [] /\
  isProcessing (final_state out) = false /\
  processedResult (final_state out) = processedResult s /\
  history (final_state out) = history s /\
  (is_auth_fault f = false ->
   exists t, out = Done tt (final_state out) t /\
             error (final_state out)
             = Some (or_else (message f) fallback_message)) /\
  (is_auth_fault f = true ->
   count_prompts (trace_of out) = 1 /\
   match aistudio_openSelectKey env 0 with
   | inr _ => exists t, out = Done tt (final_state out) t /\
                        error (final_state out) = Some api_key_message
   | inl g => exists t, out = Thrown g (final_state out) t /\
                        error (final_state out) = None
   end).
Proof.
  intros Htab Hsel Hne Hhas.
  assert (Hgen : generation env fuel s src (dispatched s)
                 = Thrown f (dispatched s) [HasSelectedApiKey]).
  { unfold generation, checkAndPromptKey. rewrite Htab. cbn [Tab_eqb].
    unfold bind, await, emit, ret, throw. now rewrite Hhas. }
  destruct (is_auth_fault f) eqn:Hf.
  - destruct (aistudio_openSelectKey env 0) as [g|[]] eqn:Hopen.
    + rewrite (handleProcess_auth_rejected env fuel s src Hsel Hne _ _ _ _
                 Hgen Hf Hopen).
      cbn. do 5 (split; [reflexivity|]). split; [discriminate|].
      intros _. split; [reflexivity|]. eexists. now split.
    + rewrite (handleProcess_auth env fuel s src Hsel Hne _ _ _ Hgen Hf
                 Hopen).
      cbn. do 5 (split; [reflexivity|]). split; [discriminate|].
      intros _. split; [reflexivity|]. eexists. now split.
  - rewrite (handleProcess_other env fuel s src Hsel Hne _ _ _ Hgen Hf).
    cbn. do 5 (split; [reflexivity|]). split; [|discriminate].
    intros _. eexists. now split.
Qed.

Lemma key_host_fault_stops_video_run_witness :
  filter is_client_call
    (trace_of (run (handleProcess env_host_refuses 3) s_video)) = [] /\
  filter is_network
    (trace_of (run (handleProcess env_host_refuses 3) s_video)) = [] /\
  processedResult (final_state (run (handleProcess env_host_refuses 3) s_video))
  = None /\
  exists t,
    run (handleProcess env_host_refuses 3) s_video
    = Thrown dialog_fault
        (final_state (run (handleProcess env_host_refuses 3) s_video)) t /\
    error (final_state (run (handleProcess env_host_refuses 3) s_video))
    = None.
Proof.
  destruct (key_host_fault_stops_video_run env_host_refuses 3 s_video clip
              auth_fault eq_refl eq_refl ltac:(discriminate) eq_refl)
    as (Hcall & Hnet & _ & Hres & _ & _ & Hauth).
  split; [exact Hcall|]. split; [exact Hnet|]. split; [exact Hres|].
  exact (proj2 (Hauth eq_refl)).
Defined.

(** ** Selecting a file, in general *)

Lemma handleFileSelect_cases env s file :
  exists s' t,
    run (fun r => handleFileSelect env r file) s = Done tt s' t /\
    (s' = s \/
     (exists msg, s' = apply_setter (SetError (Some msg)) s) \/
     (exists f,
        file = Some f /\
        s' = apply_setter (SetError (Some "Error reading file."))
               (apply_setter (SetMimeType (file_type f)) s)) \/
     (exists f base64,
        file = Some f /\
        s' = apply_setter (SetError None)
               (apply_setter (SetProcessedResult None)
                  (apply_setter (SetSelectedFile (Some base64))
                     (apply_setter (SetMimeType (file_type f)) s))))) /\
    filter is_network t = [] /\
    filter is_client_call t = [] /\
    length (filter is_encoding t) <= 1.
Proof.
  unfold run, handleFileSelect. destruct file as [f|].
  2: { do 2 eexists. split; [reflexivity|]. split; [now left|]. cbn.
       repeat split. lia. }
  destruct (Tab_eqb (activeTab s) TabImage
            && negb (startsWith (file_type f) "image/")).
  { do 2 eexists. split; [reflexivity|]. split; [right; left; now eexists|].
    cbn. repeat split. lia. }
  destruct (Tab_eqb (activeTab s) TabVideo
            && negb (startsWith (file_type f) "video/")).
  { do 2 eexists. split; [reflexivity|]. split; [right; left; now eexists|].
    cbn. repeat split. lia. }
  unfold fileToBase64, bind, try_catch, await, set, emit, ret, throw.
  destruct (FileReader_readAsDataURL env f) as [e|base64]; cbn;
    do 2 eexists; (split; [reflexivity|]).
  - split; [right; right; left; now eexists|]. cbn. repeat split; lia.
  - split; [right; right; right; now do 2 eexists|]. cbn. repeat split; lia.
Qed.

(** X17: selecting a file always returns, whatever the file and whatever
    the reader does.  It never touches the tab, the history, the
    processing flag, the instruction or the aspect ratio, sends nothing
    to the service, and reads at most one file. *)
Theorem handleFileSelect_frame env s file :
  exists s' t,
    run (fun r => handleFileSelect env r file) s = Done tt s' t /\
    activeTab s' = activeTab s /\
    history s' = history s /\
    isProcessing s' = isProcessing s /\
    instruction s' = instruction s /\
    videoAspectRatio s' = videoAspectRatio s /\
    filter is_network t = [] /\
    filter is_client_call t = [] /\
    length (filter is_encoding t) <= 1.
Proof.
  destruct (handleFileSelect_cases env s file)
    as (s' & t & Hrun & Hs' & Hnet & Hcall & Henc).
  exists s', t. split; [exact Hrun|].
  destruct Hs' as [->|[(msg & ->)|[(f & _ & ->)|(f & b & _ & ->)]]];
    cbn; repeat split; assumption.
Qed.

(** ** Sessions between user actions *)

Lemma perform_keeps_invariant env a s s' :
  rest_invariant s ->
  ends_in (run (perform env a) s) s' ->
  rest_invariant s'.
Proof.
  intros (Hproc & Hhist & Hres) Hrun. destruct a as [tab|file|fuel| |idx|txt|ar|].
  - cbn in Hrun. subst s'. cbn. repeat split; [assumption..|discriminate].
  - destruct (handleFileSelect_cases env s file)
      as (s1 & t1 & Hrun1 & Hs1 & _).
    unfold run, perform in Hrun. unfold run in Hrun1.
    rewrite Hrun1 in Hrun. cbn in Hrun. subst s'.
    destruct Hs1 as [->|[(msg & ->)|[(f & _ & ->)|(f & b & _ & ->)]]];
      cbn; repeat split; try assumption. discriminate.
  - change (run (perform env (Process fuel)) s)
      with (run (handleProcess env fuel) s) in Hrun.
    destruct (handleProcess_cases env fuel s)
      as [[_ Hrun1]|(src & Hsel & Hne & [(res & t1 & Hne' & Hrun1)
                                        |[(msg & t1 & _ & Hrun1)
                                         |[(g & f & s1 & t0 & t1 & _ & _ & _
                                            & Hrun1)
                                          |(t1 & Hrun1)]]])];
      rewrite Hrun1 in Hrun; cbn [ends_in] in Hrun; [| | | |contradiction];
      subst s'.
    + now repeat split.
    + cbn. split; [reflexivity|]. split.
      * constructor; [now split|exact Hhist].
      * intros _. rewrite Hsel. now apply truthy_Some.
    + cbn. now repeat split.
    + cbn. now repeat split.
  - cbn in Hrun. subst s'. cbn. repeat split; [assumption..|discriminate].
  - unfold run, perform in Hrun.
    destruct (nth_error (history s) idx) as [item|] eqn:Hidx.
    + cbn in Hrun. subst s'. cbn. split; [exact Hproc|].
      split; [exact Hhist|]. intros _.
      apply nth_error_In in Hidx. rewrite Forall_forall in Hhist.
      apply truthy_Some. exact (proj1 (Hhist _ Hidx)).
    + cbn in Hrun. subst s'. now repeat split.
  - cbn in Hrun. subst s'. cbn. now repeat split.
  - cbn in Hrun. subst s'. cbn. now repeat split.
  - cbn in Hrun. subst s'. now repeat split.
Qed.

Lemma reachable_invariant s : reachable s -> rest_invariant s.
Proof.
  induction 1 as [|env a s s' _ IH Hrun].
  - repeat split; [constructor|discriminate].
  - exact (perform_keeps_invariant env a s s' IH Hrun).
Qed.

Lemma reachable_s_processed : reachable s_processed.
Proof.
  apply (reachable_step env_ok (Process 0) s_uploaded s_processed).
  - apply (reachable_step env_ok (SelectFile (Some logo_file))
             initialSession s_uploaded).
    + apply reachable_initial.
    + reflexivity.
  - reflexivity.
Qed.

(** X18: between two user actions no run is in progress: in every
    session reached by handling actions to their end, [isProcessing] is
    false, so the start button is enabled whenever the editor is
    rendered, and starting from there dispatches a run unless the source
    is empty. *)
Theorem reachable_not_processing s :
  reachable s ->
  isProcessing s = false /\
  startButton_disabled s = false /\
  forall env fuel,
    run (startButton_click env fuel) s = run (handleProcess env fuel) s.
Proof.
  intros Hreach. destruct (reachable_invariant s Hreach) as (Hproc & _ & _).
  split; [exact Hproc|]. split; [exact Hproc|].
  intros env fuel.
  unfold run, startButton_click, editor_rendered, startButton_disabled.
  rewrite Hproc, andb_true_r.
  destruct (truthy (selectedFile s)) eqn:Hsrc; [reflexivity|].
  unfold handleProcess.
  apply truthy_false_inv in Hsrc as [-> | ->]; reflexivity.
Qed.

Lemma reachable_not_processing_witness :
  isProcessing s_processed = false /\
  startButton_disabled s_processed = false /\
  forall env fuel,
    run (startButton_click env fuel) s_processed
    = run (handleProcess env fuel) s_processed.
Proof.
  apply (reachable_not_processing s_processed). exact reachable_s_processed.
Defined.

(** X19: the history only holds entries with a non-empty source and a
    non-empty result; clicking any of its items therefore opens the
    editor on that item: its tab, its source loaded, its result
    displayed. *)
Theorem reachable_history_click_opens_editor s idx item :
  reachable s ->
  nth_error (history s) idx = Some item ->
  entry_filled item /\
  forall env,
    let s' := final_state (run (perform env (ClickHistory idx)) s) in
    activeTab s' = type item /\
    selectedFile s' = Some (original item) /\
    editor_rendered s' = true /\
    displayed_asset s' = Some (edited item).
Proof.
  intros Hreach Hidx.
  destruct (reachable_invariant s Hreach) as (_ & Hhist & _).
  rewrite Forall_forall in Hhist.
  pose proof (Hhist _ (nth_error_In _ _ Hidx)) as [Horig Hedit].
  split; [now split|]. intros env.
  unfold run, perform. rewrite Hidx. cbn.
  unfold editor_rendered, displayed_asset. cbn.
  apply String.eqb_neq in Horig as ->. apply String.eqb_neq in Hedit as ->.
  now repeat split.
Qed.

Lemma reachable_history_click_opens_editor_witness :
  entry_filled
    {| type := TabImage; original := photo;
       edited := "data:image/png;base64,QkJCQg==";
       timestamp := Date_now env_ok |} /\
  forall env,
    let s' := final_state (run (perform env (ClickHistory 0)) s_processed) in
    activeTab s' = TabImage /\
    selectedFile s' = Some photo /\
    editor_rendered s' = true /\
    displayed_asset s' = Some "data:image/png;base64,QkJCQg==".
Proof.
  apply (reachable_history_click_opens_editor s_processed 0
           {| type := TabImage; original := photo;
              edited := "data:image/png;base64,QkJCQg==";
              timestamp := Date_now env_ok |}).
  - exact reachable_s_processed.
  - reflexivity.
Defined.

(** The awaited part of a run neither reads nor writes the session: from
    another session it gives the same outcome, in that session. *)
Lemma poll_loop_relocate env fuel :
  forall n op s s0,
    poll_loop env fuel n op s = relocate s (poll_loop env fuel n op s0).
Proof.
  induction fuel as [|fuel IH]; intros n op s s0; cbn [poll_loop];
    destruct (done op); try reflexivity.
  unfold bind, emit, await, ret, throw.
  destruct (operations_getVideosOperation env n op) as [f|op'];
    [reflexivity|].
  cbn. rewrite (IH (S n) op' s s0).
  now destruct (poll_loop env fuel (S n) op' s0).
Qed.

Lemma generation_relocate env fuel r src s s0 :
  generation env fuel r src s = relocate s (generation env fuel r src s0).
Proof.
  unfold generation. destruct (Tab_eqb (activeTab r) TabImage).
  - unfold removeWatermarkFromImage, bind, try_catch, emit, await, ret, throw.
    now destruct (models_generateContent env _).
  - unfold checkAndPromptKey, processVideoWatermark, bind, try_catch, emit,
      await, ret, throw.
    destruct (Tab_eqb (activeTab r) TabVideo);
      [destruct (aistudio_hasSelectedApiKey env) as [f|[|]];
       [reflexivity| |destruct (aistudio_openSelectKey env 0);
                       [reflexivity|]]|];
      cbn -[poll_loop];
      (destruct (models_generateVideos env _) as [f|op0]; [reflexivity|]);
      cbn -[poll_loop]; rewrite (poll_loop_relocate env fuel 0 op0 s s0);
      destruct (poll_loop env fuel 0 op0 s0) as [opf s1 t1|f s1 t1|s1 t1];
      cbn; try reflexivity;
      now destruct (truthy (downloadLink opf)).
Qed.

(** X20: a result can be stored without its source.  The Discard button
    stays enabled while a run is waiting for the service, and the run
    goes on from the session the discard has left: when its generation
    then returns a non-empty result, the [try] / [catch] / [finally]
    statement stores that result, and puts the entry holding the source
    of the render that started the run at the head of the history, in a
    session whose source is empty; the editor is not rendered, so the
    stored result is not displayed. *)
Theorem discard_during_run_stores_result_without_source
  env fuel r src res s1 t1 :
  selectedFile r = Some src -> src <> "" ->
  generation env fuel r src (dispatched r) = Done (Some res) s1 t1 ->
  res <> "" ->
  let mid := final_state (run (fun _ => clearCurrent) (dispatched r)) in
  exists s',
    handleProcess_statement env fuel r src mid
    = Done tt s'
        (t1 ++ [Set_ (SetProcessedResult (Some res));
                Set_ (PrependHistory
                        {| type := activeTab r; original := src;
                           edited := res; timestamp := Date_now env |});
                Set_ (SetIsProcessing false)])%list /\
    processedResult s' = Some res /\
    selectedFile s' = None /\
    editor_rendered s' = false /\
    history s'
    = {| type := activeTab r; original := src; edited := res;
         timestamp := Date_now env |} :: history r /\
    isProcessing s' = false /\ error s' = None.
Proof.
  intros Hsel Hne Hgen Hres mid.
  pose proof (generation_relocate env fuel r src mid (dispatched r)) as Hmid.
  rewrite Hgen in Hmid. cbn [relocate] in Hmid.
  unfold handleProcess_statement, try_finally, try_catch_seen, set.
  rewrite handleProcess_try_split. unfold bind at 1. rewrite Hmid.
  rewrite (store_result_success env r src res mid Hres).
  eexists. split; [cbn; now rewrite <- app_assoc|]. cbn. now repeat split.
Qed.

Lemma discard_during_run_stores_result_without_source_witness :
  let mid :=
    final_state (run (fun _ => clearCurrent) (dispatched s_image)) in
  exists s',
    handleProcess_statement env_ok 0 s_image photo mid
    = Done tt s'
        [Call_removeWatermarkFromImage photo "image/png"
           (instruction s_image);
         NewGoogleGenAI "AIza-sample";
         GenerateContent
           (image_request photo "image/png" (instruction s_image));
         Set_ (SetProcessedResult (Some "data:image/png;base64,QkJCQg=="));
         Set_ (PrependHistory
                 {| type := TabImage; original := photo;
                    edited := "data:image/png;base64,QkJCQg==";
                    timestamp := Date_now env_ok |});
         Set_ (SetIsProcessing false)] /\
    processedResult s' = Some "data:image/png;base64,QkJCQg==" /\
    selectedFile s' = None /\
    editor_rendered s' = false /\
    history s'
    = [{| type := TabImage; original := photo;
          edited := "data:image/png;base64,QkJCQg==";
          timestamp := Date_now env_ok |}] /\
    isProcessing s' = false /\ error s' = None.
Proof.
  exact (discard_during_run_stores_result_without_source env_ok 0 s_image
           photo "data:image/png;base64,QkJCQg==" (dispatched s_image) _
           eq_refl ltac:(discriminate) eq_refl ltac:(discriminate)).
Defined.

(** X21: the history is append-only: whatever the action and however it
    ends, the history afterwards is the history before, or the history
    before with one new entry in front; and only a processing run adds
    an entry. *)
Theorem history_is_append_only env a s :
  let s' := final_state (run (perform env a) s) in
  history s' = history s \/
  exists fuel e, a = Process fuel /\ history s' = e :: history s.
Proof.
  destruct a as [tab|file|fuel| |idx|txt|ar|]; cbn zeta.
  - now left.
  - left. destruct (handleFileSelect_cases env s file)
      as (s1 & t1 & Hrun1 & Hs1 & _).
    unfold run, perform. unfold run in Hrun1. rewrite Hrun1. cbn.
    destruct Hs1 as [->|[(msg & ->)|[(f & _ & ->)|(f & b & _ & ->)]]];
      reflexivity.
  - change (run (perform env (Process fuel)) s)
      with (run (handleProcess env fuel) s).
    destruct (handleProcess_cases env fuel s)
      as [[_ ->]|(src & Hsel & Hne & [(res & t1 & Hne' & ->)
                                     |[(msg & t1 & _ & ->)
                                      |[(g & f & s1 & t0 & t1 & _ & _ & _
                                         & ->)
                                       |(t1 & ->)]]])].
    + now left.
    + right. now do 2 eexists.
    + now left.
    + now left.
    + now left.
  - now left.
  - left. unfold run, perform.
    now destruct (nth_error (history s) idx).
  - now left.
  - now left.
  - now left.
Qed.

(** ** How the operations compose *)

(** X22: restoring a history entry does not restore a MIME type.  When
    an image entry is selected and then refined, the request carries the
    payload of the entry's source under the MIME type the session had
    before the click, that of the file selected last. *)
Theorem refine_after_history_click_uses_session_mimeType env fuel s item :
  type item = TabImage ->
  original item <> "" ->
  let s1 := final_state (run (fun _ => history_onClick item) s) in
  mimeType s1 = mimeType s /\
  filter is_submission (trace_of (run (handleProcess env fuel) s1))
  = [GenerateContent
       (image_request (original item) (mimeType s) (instruction s))].
Proof.
  intros Hty Hne. rewrite history_onClick_run. cbn [final_state].
  split; [reflexivity|].
  match goal with
  | |- context [run (handleProcess env fuel) ?x] =>
      rewrite (handleProcess_filter _ env fuel x (original item) eq_refl Hne)
        by (intros []; easy)
  end.
  rewrite generation_submissions. cbn. now rewrite Hty.
Qed.

Lemma refine_after_history_click_uses_session_mimeType_witness :
  let s1 := final_state (run (fun _ => history_onClick old_entry) s_video) in
  mimeType s1 = "video/mp4" /\
  filter is_submission (trace_of (run (handleProcess env_ok 0) s1))
  = [GenerateContent
       (image_request photo "video/mp4" (instruction s_video))].
Proof.
  apply (refine_after_history_click_uses_session_mimeType env_ok 0 s_video
           old_entry).
  - reflexivity.
  - discriminate.
Defined.

(** X23: after a discard or a tab switch there is nothing to process:
    source, result and error are empty, the history and the MIME type
    are kept, and starting a run then changes nothing and calls
    nothing. *)
Theorem nothing_to_process_after_clearing env fuel s :
  let s1 := final_state (run (fun _ => clearCurrent) s) in
  (selectedFile s1 = None /\ processedResult s1 = None /\ error s1 = None /\
   history s1 = history s /\ mimeType s1 = mimeType s /\
   activeTab s1 = activeTab s) /\
  run (handleProcess env fuel) s1 = Done tt s1 [] /\
  forall tab,
    let s2 := final_state (run (fun _ => selectTab tab) s) in
    (activeTab s2 = tab /\ selectedFile s2 = None /\
     processedResult s2 = None /\ error s2 = None /\
     history s2 = history s /\ mimeType s2 = mimeType s) /\
    run (handleProcess env fuel) s2 = Done tt s2 [].
Proof.
  cbn. repeat split.
Qed.

(** X24: an image run needs no iteration budget: it is never left
    waiting.  It returns or rejects with [isProcessing] false again,
    having sent its one request and made neither a wait nor a poll; it
    rejects only when the request failed with the authentication marker
    and the key dialog, opened for the first time, rejected. *)
Theorem image_run_is_single_shot env fuel s src :
  activeTab s = TabImage ->
  selectedFile s = Some src -> src <> "" ->
  let out := run (handleProcess env fuel) s in
  (forall s' t, out <> Diverged s' t) /\
  isProcessing (final_state out) = false /\
  filter is_network (trace_of out)
  = [GenerateContent (image_request src (mimeType s) (instruction s))] /\
  polled (trace_of out) = [] /\
  (forall ms, ~ In (SetTimeout ms) (trace_of out)) /\
  (forall g s' t,
     out = Thrown g s' t ->
     exists f,
       models_generateContent env
         (image_request src (mimeType s) (instruction s)) = inl f /\
       is_auth_fault f = true /\
       aistudio_openSelectKey env 0 = inl g).
Proof.
  intros Htab Hsel Hne.
  destruct (models_generateContent env
              (image_request src (mimeType s) (instruction s)))
    as [f|resp] eqn:Hresp.
  - assert (Hgen := removeWatermarkFromImage_fault env src (mimeType s)
                      (instruction s) f (dispatched s) Hresp).
    rewrite <- (generation_image env fuel s src _ Htab) in Hgen.
    destruct (is_auth_fault f) eqn:Hf.
    + destruct (aistudio_openSelectKey env 0) as [g|[]] eqn:Hopen.
      * rewrite (handleProcess_auth_rejected env fuel s src Hsel Hne _ _ _ _
                   Hgen Hf Hopen).
        cbn. split; [discriminate|]. do 3 (split; [reflexivity|]).
        split; [intros ms H;
               repeat (destruct H as [H|H]; [discriminate H|]); exact H|].
        intros g' s' t [= <- _ _]. now exists f.
      * rewrite (handleProcess_auth env fuel s src Hsel Hne _ _ _ Hgen Hf
                   Hopen).
        cbn. split; [discriminate|]. do 3 (split; [reflexivity|]).
        split; [intros ms H;
               repeat (destruct H as [H|H]; [discriminate H|]); exact H|discriminate].
    + rewrite (handleProcess_other env fuel s src Hsel Hne _ _ _ Hgen Hf).
      cbn. split; [discriminate|]. do 3 (split; [reflexivity|]).
      split; [intros ms H;
               repeat (destruct H as [H|H]; [discriminate H|]); exact H|discriminate].
  - assert (Hgen := removeWatermarkFromImage_ok env src (mimeType s)
                      (instruction s) resp (dispatched s) Hresp).
    rewrite <- (generation_image env fuel s src _ Htab) in Hgen.
    destruct (truthy (first_inline (response_parts resp))) eqn:Hres.
    + destruct (first_inline (response_parts resp)) as [res|];
        [|discriminate].
      apply truthy_Some in Hres.
      rewrite (handleProcess_success env fuel s src Hsel Hne _ _ _ Hgen Hres).
      cbn. split; [discriminate|]. do 3 (split; [reflexivity|]).
      split; [intros ms H;
               repeat (destruct H as [H|H]; [discriminate H|]); exact H|discriminate].
    + rewrite (handleProcess_empty env fuel s src Hsel Hne _ _ _ Hgen Hres).
      cbn. split; [discriminate|]. do 3 (split; [reflexivity|]).
      split; [intros ms H;
               repeat (destruct H as [H|H]; [discriminate H|]); exact H|discriminate].
Qed.

Lemma image_run_is_single_shot_witness :
  run (handleProcess env_dialog_fails 0) s_image
  <> Diverged (final_state (run (handleProcess env_dialog_fails 0) s_image))
       (trace_of (run (handleProcess env_dialog_fails 0) s_image)) /\
  isProcessing (final_state (run (handleProcess env_dialog_fails 0) s_image))
  = false /\
  filter is_network
    (trace_of (run (handleProcess env_dialog_fails 0) s_image))
  = [GenerateContent
       (image_request photo (mimeType s_image) (instruction s_image))] /\
  polled (trace_of (run (handleProcess env_dialog_fails 0) s_image)) = [] /\
  exists f,
    models_generateContent env_dialog_fails
      (image_request photo (mimeType s_image) (instruction s_image)) = inl f /\
    is_auth_fault f = true /\
    aistudio_openSelectKey env_dialog_fails 0 = inl dialog_fault.
Proof.
  destruct (image_run_is_single_shot env_dialog_fails 0 s_image photo
              eq_refl eq_refl ltac:(discriminate))
    as (Hnever & Hproc & Hnet & Hpoll & _ & Hrej).
  split; [apply Hnever|]. split; [exact Hproc|]. split; [exact Hnet|].
  split; [exact Hpoll|]. exact (Hrej _ _ _ eq_refl).
Defined.

(** X25: uploading and then processing sends what was uploaded: after a
    file of the image tab has been read, a run submits the payload the
    reader produced under the declared type of the file. *)
Theorem upload_then_process_sends_upload env fuel s file base64 :
  activeTab s = TabImage ->
  startsWith (file_type file) "image/" = true ->
  FileReader_readAsDataURL env file = inr base64 ->
  base64 <> "" ->
  let s1 := final_state (run (fun r => handleFileSelect env r (Some file)) s) in
  selectedFile s1 = Some base64 /\
  processedResult s1 = None /\ error s1 = None /\
  filter is_submission (trace_of (run (handleProcess env fuel) s1))
  = [GenerateContent (image_request base64 (file_type file) (instruction s))].
Proof.
  intros Htab Hty Hread Hne. cbv zeta.
  assert (Hup : run (fun r => handleFileSelect env r (Some file)) s
                = Done tt
                    (apply_setter (SetError None)
                       (apply_setter (SetProcessedResult None)
                          (apply_setter (SetSelectedFile (Some base64))
                             (apply_setter (SetMimeType (file_type file)) s))))
                    [Set_ (SetMimeType (file_type file)); ReadAsDataURL file;
                     Set_ (SetSelectedFile (Some base64));
                     Set_ (SetProcessedResult None); Set_ (SetError None)]).
  { unfold run, handleFileSelect. rewrite Htab, Hty. cbn [Tab_eqb andb negb].
    unfold fileToBase64, bind, try_catch, await, set, emit, ret, throw.
    now rewrite Hread. }
  rewrite Hup. cbn [final_state].
  do 3 (split; [reflexivity|]).
  match goal with
  | |- context [run (handleProcess env fuel) ?x] =>
      rewrite (handleProcess_filter _ env fuel x base64 eq_refl Hne)
        by (intros []; easy)
  end.
  rewrite generation_submissions. cbn. now rewrite Htab.
Qed.

Lemma upload_then_process_sends_upload_witness :
  let s1 := final_state
              (run (fun r => handleFileSelect env_ok r (Some logo_file))
                   initialSession) in
  selectedFile s1 = Some photo /\
  processedResult s1 = None /\ error s1 = None /\
  filter is_submission (trace_of (run (handleProcess env_ok 0) s1))
  = [GenerateContent
       (image_request photo (file_type logo_file)
          (instruction initialSession))].
Proof.
  apply (upload_then_process_sends_upload env_ok 0 initialSession logo_file
           photo).
  - reflexivity.
  - reflexivity.
  - reflexivity.
  - discriminate.
Defined.

(** ** Downloads and titles *)

Lemma length_append (a b : string) :
  String.length (a ++ b) = String.length a + String.length b.
Proof. induction a as [|c a IH]; cbn; [reflexivity|now rewrite IH]. Qed.

Lemma append_cancel_r (t a b : string) : a ++ t = b ++ t -> a = b.
Proof.
  revert b. induction a as [|c a IH]; intros [|d b] H; cbn in H.
  - reflexivity.
  - apply (f_equal String.length) in H. cbn in H.
    rewrite length_append in H. lia.
  - apply (f_equal String.length) in H. cbn in H.
    rewrite length_append in H. lia.
  - injection H as -> H. f_equal. now apply IH.
Qed.

Lemma show_Z_inj (a b : Z) : show_Z a = show_Z b -> a = b.
Proof.
  assert (Hproper : forall z,
            Z.to_int z <> Decimal.Pos Decimal.Nil /\
            Z.to_int z <> Decimal.Neg Decimal.Nil).
  { intros z. destruct z; cbn; split; try discriminate; intros [= H];
      now apply Unsigned.to_uint_nonnil in H. }
  unfold show_Z. intros H.
  apply (f_equal NilZero.int_of_string) in H.
  destruct (Hproper a), (Hproper b).
  rewrite !NilZero.isi in H by assumption.
  injection H as H. now apply DecimalZ.to_int_inj.
Qed.

(** X26: the name of a download is made of the active tab and the clock
    alone: two downloads get the same name exactly when the tab and the
    clock reading are the same, whatever is downloaded.  So the
    extension of a saved history item follows the active tab, not the
    kind of the item. *)
Theorem download_name_by_tab_and_clock env env' r r' url url' :
  href (downloadResult env r url) = url /\
  (download (downloadResult env r url) = download (downloadResult env' r' url')
   <-> activeTab r = activeTab r' /\ Date_now env = Date_now env') /\
  forall item item',
    download (saveResult_onClick env r item)
    = download (saveResult_onClick env r item').
Proof.
  split; [reflexivity|]. split; [|reflexivity].
  unfold downloadResult. cbn [download]. split.
  - destruct (activeTab r), (activeTab r'); cbn -[show_Z]; intros H;
      inversion H as [H']; try discriminate;
      apply append_cancel_r, show_Z_inj in H'; now split.
  - intros [-> ->]. reflexivity.
Qed.

Lemma history_titles_from_shift e h items : forall idx,
  history_titles_from (e :: h) (S idx) items = history_titles_from h idx items.
Proof.
  induction items as [|item items IH]; intros idx; cbn [history_titles_from];
    [reflexivity|].
  rewrite IH. f_equal. unfold history_title. do 3 f_equal.
  cbn [length]. lia.
Qed.

(** X27: the numbering of the history titles is stable: a new entry gets
    the next number, one more than the number of earlier entries, and
    the title of every earlier entry stays what it was. *)
Theorem history_titles_stable e h :
  history_titles (e :: h)
  = (capitalized (type e) ++ " Clean #"
       ++ show_Z (Z.of_nat (length h) + 1))
    :: history_titles h.
Proof.
  unfold history_titles. cbn [history_titles_from].
  rewrite history_titles_from_shift. f_equal.
  unfold history_title. do 3 f_equal. cbn [length]. lia.
Qed.
